(** * Sardines: the simulation core of [Sardines.py]

    A shallow embedding of the per-frame update, the collision test, the
    score ranking and the name-entry handling of the game, followed by the
    properties of the specification that were checked against it.

    Numbers.  Python floats are idealised as real numbers ([R]), as the
    specification does ("2D real-valued coordinate"); [int(x)] on a float
    is truncation toward zero.  [pygame.Rect] holds integers ([Z]).

    Environment.  Everything the code reads from outside during one frame
    (the time step, the held keys, the clock, the random draws) is
    collected in a [Frame] record, one field per call site.  What
    [json.load] makes of the score file is part of the state of that
    file.

    Rounding.  The code computes in doubles.  Comparisons, [min], [max]
    and the sign of a difference are the same there as over the reals,
    and rounding keeps the order of the numbers; a sum or a product is
    the program's own sum or product.  What is stated about the moves of
    the player and of the pursuers is stated in these terms, and not as
    an equation between lengths, which doubles meet only up to
    rounding.  Coordinates are taken to be far below the 32 bits of a
    [pygame.Rect].

    Drawing is left out, except for the one thing it writes to the game:
    the place of the menu buttons. *)

From Stdlib Require Import Reals Lra Lia ZArith List Bool String Ascii NArith.
From Stdlib Require Import Sorted Permutation.
Import ListNotations.

Open Scope R_scope.

(* ================================================================== *)
(** ** Python and pygame primitives *)

(** [a < b] on numbers, as a boolean. *)
Definition Rltb (a b : R) : bool := if Rlt_dec a b then true else false.

(** [int(x)]: truncation toward zero. *)
Definition py_int (x : R) : Z :=
  if Rlt_dec x 0 then (- Int_part (- x))%Z else Int_part x.

(** The builtin [min(a, b)]: the first argument unless the second is
    strictly smaller. *)
Definition py_min (a b : R) : R := if Rltb b a then b else a.

(** The builtin [max(a, b)]: the first argument unless the second is
    strictly greater. *)
Definition py_max (a b : R) : R := if Rltb a b then b else a.

(** [random.uniform(a, b)] is [a + (b - a) * random()]; the draw [u] of
    [random()] comes from the environment. *)
Definition uniform (a b u : R) : R := a + (b - a) * u.

(** [random.choice(seq)] is [seq[k]] for a drawn index [k] below the
    length. *)
Definition choice {A : Type} (d : A) (xs : list A) (k : nat) : A :=
  nth (k mod List.length xs) xs d.

(** [a <= b] on numbers, as a boolean. *)
Definition Rleb (a b : R) : bool := if Rle_dec a b then true else false.

(** *** [pygame.math.Vector2] *)

Record Vector2 : Type := Vec { vx : R; vy : R }.

Module V2.

Definition add (a b : Vector2) : Vector2 := Vec (vx a + vx b) (vy a + vy b).

Definition sub (a b : Vector2) : Vector2 := Vec (vx a - vx b) (vy a - vy b).

Definition scale (a : Vector2) (k : R) : Vector2 := Vec (vx a * k) (vy a * k).

Definition length (a : Vector2) : R := sqrt (vx a * vx a + vy a * vy a).

(** [normalize_ip]; every call in the source is guarded by
    [length() > 0]. *)
Definition normalize (a : Vector2) : Vector2 :=
  Vec (vx a / length a) (vy a / length a).

(** Assignment to the [x] attribute, and to the [y] attribute. *)
Definition set_x (a : Vector2) (x : R) : Vector2 := Vec x (vy a).

Definition set_y (a : Vector2) (y : R) : Vector2 := Vec (vx a) y.

End V2.

(** *** [pygame.Rect] *)

Record Rect : Type := mkRect { rx : Z; ry : Z; rw : Z; rh : Z }.

(** [Rect.colliderect] of pygame 2 (the source needs pygame 2: it passes
    [border_radius] to [pygame.draw.rect]).  A rectangle of zero width or
    height collides with nothing; a negative width or height is read as
    the mirrored span.  Touching edges do not collide. *)
Definition colliderect (a b : Rect) : bool :=
  if ((rw a =? 0) || (rh a =? 0) || (rw b =? 0) || (rh b =? 0))%Z then false
  else
    ((Z.min (rx a) (rx a + rw a) <? Z.max (rx b) (rx b + rw b)) &&
     (Z.min (ry a) (ry a + rh a) <? Z.max (ry b) (ry b + rh b)) &&
     (Z.max (rx a) (rx a + rw a) >? Z.min (rx b) (rx b + rw b)) &&
     (Z.max (ry a) (ry a + rh a) >? Z.min (ry b) (ry b + rh b)))%Z.

(** The comparison of pygame 1.x, without the zero-size guard and without
    mirroring; kept to show that the concrete overlaps below do not hinge
    on the pygame version. *)
Definition colliderect_legacy (a b : Rect) : bool :=
  ((rx a <? rx b + rw b) && (ry a <? ry b + rh b) &&
   (rx a + rw a >? rx b) && (ry a + rh a >? ry b))%Z.

(** [Rect.collidepoint]. *)
Definition collidepoint (r : Rect) (p : Z * Z) : bool :=
  ((rx r <=? fst p) && (fst p <? rx r + rw r) &&
   (ry r <=? snd p) && (snd p <? ry r + rh r))%Z.

(** [Rect.center]: the half of the width and of the height, rounded
    down. *)
Definition center (r : Rect) : Z * Z :=
  ((rx r + rw r / 2)%Z, (ry r + rh r / 2)%Z).

(** *** Strings

    A Python [str] is a sequence of code points. *)

Definition str : Type := list N.

Definition lit (s : string) : str :=
  map N_of_ascii (list_ascii_of_string s).

(** [str.isspace] on one code point: the white-space code points of
    CPython's Unicode database. *)
Definition isspace (c : N) : bool :=
  ((9 <=? c) && (c <=? 13) || (28 <=? c) && (c <=? 32) ||
   (c =? 133) || (c =? 160) || (c =? 5760) ||
   (8192 <=? c) && (c <=? 8202) || (c =? 8232) || (c =? 8233) ||
   (c =? 8239) || (c =? 8287) || (c =? 12288))%N.

Fixpoint lstrip (s : str) : str :=
  match s with
  | [] => []
  | c :: s' => if isspace c then lstrip s' else s
  end.

Definition rstrip (s : str) : str := rev (lstrip (rev s)).

(** [str.strip()]. *)
Definition strip (s : str) : str := rstrip (lstrip s).

(** Truth value of a [str]: non-empty. *)
Definition truthy (s : str) : bool :=
  match s with [] => false | _ :: _ => true end.

(* ================================================================== *)
(** ** Constants *)

Definition SCREEN_WIDTH : R := 800.

Definition SCREEN_HEIGHT : R := 600.

Inductive GameState : Type := MENU | PLAYING | GAMEOVER | NAME_INPUT.

Definition GameState_eqb (a b : GameState) : bool :=
  match a, b with
  | MENU, MENU | PLAYING, PLAYING | GAMEOVER, GAMEOVER
  | NAME_INPUT, NAME_INPUT => true
  | _, _ => false
  end.

(* ================================================================== *)
(** ** Game objects *)

(** The base class [GameObject]: whatever has a position and a size. *)
Class GameObject (A : Type) : Type := {
  position : A -> Vector2;
  size : A -> Vector2
}.

(** [GameObject.get_rect(shrink)]. *)
Definition get_rect {A : Type} `{GameObject A} (self : A) (shrink : R) : Rect :=
  mkRect (py_int (vx (position self) + shrink))
         (py_int (vy (position self) + shrink))
         (py_int (vx (size self) - 2 * shrink))
         (py_int (vy (size self) - 2 * shrink)).

(** The body of [collides_with] for a given value of its local
    [buffer]. *)
Definition overlaps {A B : Type} `{GameObject A} `{GameObject B}
    (self : A) (other : B) (buffer : R) : bool :=
  colliderect (get_rect self buffer) (get_rect other buffer).

(** [GameObject.collides_with]: [buffer = 18]. *)
Definition collides_with {A B : Type} `{GameObject A} `{GameObject B}
    (self : A) (other : B) : bool :=
  overlaps self other 18.

(** The keys read by [Fish.update] from [pygame.key.get_pressed()]. *)
Record Keys : Type := mkKeys {
  K_LEFT : bool; K_a : bool; K_RIGHT : bool; K_d : bool;
  K_UP : bool; K_w : bool; K_DOWN : bool; K_s : bool
}.

(** *** The player *)

Module Fish.

Record t : Type := mk {
  position : Vector2;
  size : Vector2;
  speed : R;
  invincible : bool;
  invincible_timer : R;
  direction : Z;
  velocity : Vector2
}.

(** [Fish(x, y)]. *)
Definition init (x y : R) : t :=
  mk (Vec x y) (Vec 100 70) 345 false 0 1 (Vec 0 0).

Definition set_position (self : t) (p : Vector2) : t :=
  mk p (size self) (speed self) (invincible self) (invincible_timer self)
     (direction self) (velocity self).

Definition set_invincible (self : t) (b : bool) : t :=
  mk (position self) (size self) (speed self) b (invincible_timer self)
     (direction self) (velocity self).

Definition set_invincible_timer (self : t) (x : R) : t :=
  mk (position self) (size self) (speed self) (invincible self) x
     (direction self) (velocity self).

Definition set_direction (self : t) (d : Z) : t :=
  mk (position self) (size self) (speed self) (invincible self)
     (invincible_timer self) d (velocity self).

Definition set_velocity (self : t) (v : Vector2) : t :=
  mk (position self) (size self) (speed self) (invincible self)
     (invincible_timer self) (direction self) v.

(** The first part of [update]: the velocity is reset and the four key
    tests run in the order of the source, each overwriting what an
    earlier one wrote. *)
Definition steer (keys : Keys) (self : t) : t :=
  let self := set_velocity self (Vec 0 0) in
  let self :=
    if K_LEFT keys || K_a keys
    then set_direction (set_velocity self (V2.set_x (velocity self) (-1))) (-1)
    else self in
  let self :=
    if K_RIGHT keys || K_d keys
    then set_direction (set_velocity self (V2.set_x (velocity self) 1)) 1
    else self in
  let self :=
    if K_UP keys || K_w keys
    then set_velocity self (V2.set_y (velocity self) (-1))
    else self in
  if K_DOWN keys || K_s keys
  then set_velocity self (V2.set_y (velocity self) 1)
  else self.

(** The velocity after the optional normalisation. *)
Definition heading (keys : Keys) (self : t) : t :=
  let self := steer keys self in
  if Rltb 0 (V2.length (velocity self))
  then set_velocity self (V2.normalize (velocity self))
  else self.

(** [self.velocity * self.speed * dt], the vector added to the
    position. *)
Definition step (dt : R) (self : t) : Vector2 :=
  V2.scale (V2.scale (velocity self) (speed self)) dt.

(** [Fish.update(dt, keys)]. *)
Definition update (dt : R) (keys : Keys) (self : t) : t :=
  let self := heading keys self in
  let self := set_position self (V2.add (position self) (step dt self)) in
  let self :=
    set_position self
      (V2.set_x (position self)
         (py_max 0 (py_min (SCREEN_WIDTH - vx (size self))
                           (vx (position self))))) in
  let self :=
    set_position self
      (V2.set_y (position self)
         (py_max 0 (py_min (SCREEN_HEIGHT - vy (size self))
                           (vy (position self))))) in
  if invincible self then
    let self := set_invincible_timer self (invincible_timer self - dt) in
    if Rleb (invincible_timer self) 0 then set_invincible self false
    else self
  else self.

End Fish.

#[export] Instance Fish_GameObject : GameObject Fish.t :=
  {| position := Fish.position; size := Fish.size |}.

(** *** The pursuers *)

Module Shark.

Record t : Type := mk {
  position : Vector2;
  size : Vector2;
  speed : R
}.

(** [Shark(x, y, speed)]. *)
Definition init (x y speed : R) : t := mk (Vec x y) (Vec 140 90) speed.

(** [Shark.update(dt, target_position)]; [u] holds the two draws of
    [random()] behind the two calls of [random.uniform]. *)
Definition update (dt : R) (target_position : Vector2) (u : R * R)
    (self : t) : t :=
  let direction := V2.sub target_position (position self) in
  if Rltb 0 (V2.length direction) then
    let direction := V2.normalize direction in
    let random_offset :=
      Vec (uniform (-3 / 10) (3 / 10) (fst u))
          (uniform (-3 / 10) (3 / 10) (snd u)) in
    let direction := V2.add direction random_offset in
    let direction :=
      if Rltb 0 (V2.length direction) then V2.normalize direction
      else direction in
    mk (V2.add (position self) (V2.scale (V2.scale direction (speed self)) dt))
       (size self) (speed self)
  else self.

(** [shark.speed *= 0.5]. *)
Definition slow (self : t) : t :=
  mk (position self) (size self) (speed self * (1 / 2)).

End Shark.

#[export] Instance Shark_GameObject : GameObject Shark.t :=
  {| position := Shark.position; size := Shark.size |}.

(** *** The power-ups *)

Module Powerup.

(** The strings ["invincible"], ["slow"], ["score"] and ["mystery"]
    from which [spawn_powerup] draws the type. *)
Inductive kind : Type := invincible | slow | score | mystery.

Record t : Type := mk {
  position : Vector2;
  size : Vector2;
  type : kind;
  active : bool
}.

(** [Powerup(x, y, type)]. *)
Definition init (x y : R) (ty : kind) : t :=
  mk (Vec x y) (Vec 30 30) ty true.

Definition deactivate (self : t) : t :=
  mk (position self) (size self) (type self) false.

End Powerup.

#[export] Instance Powerup_GameObject : GameObject Powerup.t :=
  {| position := Powerup.position; size := Powerup.size |}.

(** *** The background bubbles *)

Module Bubble.

Record t : Type := mk { radius : Z; x : R; y : R; speed : R }.

(** [Bubble.update(dt)]; [u] is the draw behind [random.uniform]. *)
Definition update (dt : R) (u : R) (self : t) : t :=
  let self := mk (radius self) (x self) (y self - speed self * dt)
                 (speed self) in
  if Rltb (y self + IZR (radius self)) 0 then
    mk (radius self) (uniform 0 SCREEN_WIDTH u)
       (SCREEN_HEIGHT + IZR (radius self)) (speed self)
  else self.

End Bubble.

(* ================================================================== *)
(** ** The score ranking and the score file *)

Module Entry.

(** One dictionary [{"name": ..., "score": ...}] of the ranked list. *)
Record t : Type := mk { name : str; score : Z }.

End Entry.

(** [list.sort(key=lambda s: s["score"], reverse=True)] is a stable sort
    in descending order of the key: [insert_desc] puts an entry before
    the first one whose score is not greater, so that of two entries with
    the same score the one that came first in the list stays first. *)
Fixpoint insert_desc (e : Entry.t) (l : list Entry.t) : list Entry.t :=
  match l with
  | [] => [e]
  | e' :: l' =>
      if (Entry.score e <? Entry.score e')%Z then e' :: insert_desc e l'
      else e :: l
  end.

Definition sort_desc (l : list Entry.t) : list Entry.t :=
  fold_right insert_desc [] l.

#[local] Set Warnings "-register-all".

(** Values of [json.load]. *)
Inductive json : Type :=
| JNull
| JBool (b : bool)
| JInt (z : Z)
| JFloat (x : R)
| JStr (s : str)
| JList (l : list json)
| JDict (kv : list (str * json)).

(** The exceptions [json.load] raises on a file that is not JSON. *)
Inductive exn : Type := JSONDecodeError | UnicodeDecodeError.

Inductive outcome (A : Type) : Type :=
| Return (a : A)
| Raise (e : exn).

Arguments Return {A} a.
Arguments Raise {A} e.

(** [HIGH_SCORE_FILE] as [load_high_scores] sees it: absent
    ([os.path.exists] is false), or present, with what [json.load] does
    on its content. *)
Inductive ScoreFile : Type :=
| absent
| present (load : outcome json).

(** [SharkChaseGame.load_high_scores]. *)
Definition load_high_scores (file : ScoreFile) : outcome json :=
  match file with
  | present load => load
  | absent => Return (JList [])
  end.

(** The shape [update_high_scores] writes: a list of dictionaries with
    the keys ["name"] (a string) and ["score"] (an integer). *)
Definition entry_shape (v : json) : bool :=
  match v with
  | JDict [(k1, JStr _); (k2, JInt _)] =>
      if list_eq_dec N.eq_dec k1 (lit "name") then
        if list_eq_dec N.eq_dec k2 (lit "score") then true else false
      else false
  | _ => false
  end.

Definition expected_shape (v : json) : bool :=
  match v with
  | JList l => forallb entry_shape l
  | _ => false
  end.

(* ================================================================== *)
(** ** The menu buttons *)

(** The callbacks stored on the buttons. *)
Inductive Action : Type :=
| set_difficulty_to (level : Z)
| enter_name_mode_action
| start_game_action.

Module Button.

Record t : Type := mk { rect : Rect; action : Action; is_hovered : bool }.

(** [Button.contains]. *)
Definition contains (self : t) (point : Z * Z) : bool :=
  collidepoint (rect self) point.

Definition set_is_hovered (self : t) (b : bool) : t :=
  mk (rect self) (action self) b.

End Button.

(* ================================================================== *)
(** ** The game *)

(** The state of [SharkChaseGame] that the simulation reads and writes.
    [saved] lists the successive contents written to [HIGH_SCORE_FILE]
    by [save_high_scores], most recent first. *)
Record Game : Type := mkGame {
  state : GameState;
  username : str;
  username_input : str;
  difficulty : Z;
  spawn_rate : Z;
  last_spawn_time : Z;
  game_time : R;
  score : R;
  powerup_spawn_rate : Z;
  last_powerup_spawn_time : Z;
  player : Fish.t;
  sharks : list Shark.t;
  powerups : list Powerup.t;
  bubbles : list Bubble.t;
  high_scores : list Entry.t;
  buttons : list Button.t;
  saved : list (list Entry.t)
}.

Definition with_state (g : Game) (v : GameState) : Game :=
  mkGame v (username g) (username_input g) (difficulty g) (spawn_rate g)
    (last_spawn_time g) (game_time g) (score g) (powerup_spawn_rate g)
    (last_powerup_spawn_time g) (player g) (sharks g) (powerups g)
    (bubbles g) (high_scores g) (buttons g) (saved g).

Definition with_username (g : Game) (v : str) : Game :=
  mkGame (state g) v (username_input g) (difficulty g) (spawn_rate g)
    (last_spawn_time g) (game_time g) (score g) (powerup_spawn_rate g)
    (last_powerup_spawn_time g) (player g) (sharks g) (powerups g)
    (bubbles g) (high_scores g) (buttons g) (saved g).

Definition with_username_input (g : Game) (v : str) : Game :=
  mkGame (state g) (username g) v (difficulty g) (spawn_rate g)
    (last_spawn_time g) (game_time g) (score g) (powerup_spawn_rate g)
    (last_powerup_spawn_time g) (player g) (sharks g) (powerups g)
    (bubbles g) (high_scores g) (buttons g) (saved g).

Definition with_difficulty (g : Game) (v : Z) : Game :=
  mkGame (state g) (username g) (username_input g) v (spawn_rate g)
    (last_spawn_time g) (game_time g) (score g) (powerup_spawn_rate g)
    (last_powerup_spawn_time g) (player g) (sharks g) (powerups g)
    (bubbles g) (high_scores g) (buttons g) (saved g).

Definition with_spawn_rate (g : Game) (v : Z) : Game :=
  mkGame (state g) (username g) (username_input g) (difficulty g) v
    (last_spawn_time g) (game_time g) (score g) (powerup_spawn_rate g)
    (last_powerup_spawn_time g) (player g) (sharks g) (powerups g)
    (bubbles g) (high_scores g) (buttons g) (saved g).

Definition with_last_spawn_time (g : Game) (v : Z) : Game :=
  mkGame (state g) (username g) (username_input g) (difficulty g)
    (spawn_rate g) v (game_time g) (score g) (powerup_spawn_rate g)
    (last_powerup_spawn_time g) (player g) (sharks g) (powerups g)
    (bubbles g) (high_scores g) (buttons g) (saved g).

Definition with_game_time (g : Game) (v : R) : Game :=
  mkGame (state g) (username g) (username_input g) (difficulty g)
    (spawn_rate g) (last_spawn_time g) v (score g) (powerup_spawn_rate g)
    (last_powerup_spawn_time g) (player g) (sharks g) (powerups g)
    (bubbles g) (high_scores g) (buttons g) (saved g).

Definition with_score (g : Game) (v : R) : Game :=
  mkGame (state g) (username g) (username_input g) (difficulty g)
    (spawn_rate g) (last_spawn_time g) (game_time g) v (powerup_spawn_rate
    g) (last_powerup_spawn_time g) (player g) (sharks g) (powerups g)
    (bubbles g) (high_scores g) (buttons g) (saved g).

Definition with_powerup_spawn_rate (g : Game) (v : Z) : Game :=
  mkGame (state g) (username g) (username_input g) (difficulty g)
    (spawn_rate g) (last_spawn_time g) (game_time g) (score g) v
    (last_powerup_spawn_time g) (player g) (sharks g) (powerups g)
    (bubbles g) (high_scores g) (buttons g) (saved g).

Definition with_last_powerup_spawn_time (g : Game) (v : Z) : Game :=
  mkGame (state g) (username g) (username_input g) (difficulty g)
    (spawn_rate g) (last_spawn_time g) (game_time g) (score g)
    (powerup_spawn_rate g) v (player g) (sharks g) (powerups g) (bubbles
    g) (high_scores g) (buttons g) (saved g).

Definition with_player (g : Game) (v : Fish.t) : Game :=
  mkGame (state g) (username g) (username_input g) (difficulty g)
    (spawn_rate g) (last_spawn_time g) (game_time g) (score g)
    (powerup_spawn_rate g) (last_powerup_spawn_time g) v (sharks g)
    (powerups g) (bubbles g) (high_scores g) (buttons g) (saved g).

Definition with_sharks (g : Game) (v : list Shark.t) : Game :=
  mkGame (state g) (username g) (username_input g) (difficulty g)
    (spawn_rate g) (last_spawn_time g) (game_time g) (score g)
    (powerup_spawn_rate g) (last_powerup_spawn_time g) (player g) v
    (powerups g) (bubbles g) (high_scores g) (buttons g) (saved g).

Definition with_powerups (g : Game) (v : list Powerup.t) : Game :=
  mkGame (state g) (username g) (username_input g) (difficulty g)
    (spawn_rate g) (last_spawn_time g) (game_time g) (score g)
    (powerup_spawn_rate g) (last_powerup_spawn_time g) (player g) (sharks
    g) v (bubbles g) (high_scores g) (buttons g) (saved g).

Definition with_bubbles (g : Game) (v : list Bubble.t) : Game :=
  mkGame (state g) (username g) (username_input g) (difficulty g)
    (spawn_rate g) (last_spawn_time g) (game_time g) (score g)
    (powerup_spawn_rate g) (last_powerup_spawn_time g) (player g) (sharks
    g) (powerups g) v (high_scores g) (buttons g) (saved g).

Definition with_high_scores (g : Game) (v : list Entry.t) : Game :=
  mkGame (state g) (username g) (username_input g) (difficulty g)
    (spawn_rate g) (last_spawn_time g) (game_time g) (score g)
    (powerup_spawn_rate g) (last_powerup_spawn_time g) (player g) (sharks
    g) (powerups g) (bubbles g) v (buttons g) (saved g).

Definition with_buttons (g : Game) (v : list Button.t) : Game :=
  mkGame (state g) (username g) (username_input g) (difficulty g)
    (spawn_rate g) (last_spawn_time g) (game_time g) (score g)
    (powerup_spawn_rate g) (last_powerup_spawn_time g) (player g) (sharks
    g) (powerups g) (bubbles g) (high_scores g) v (saved g).

Definition with_saved (g : Game) (v : list (list Entry.t)) : Game :=
  mkGame (state g) (username g) (username_input g) (difficulty g)
    (spawn_rate g) (last_spawn_time g) (game_time g) (score g)
    (powerup_spawn_rate g) (last_powerup_spawn_time g) (player g) (sharks
    g) (powerups g) (bubbles g) (high_scores g) (buttons g) v.

(** What one call of [update] reads from outside the game: the time
    step, the held keys, the successive readings of
    [pygame.time.get_ticks()] and the random draws, one field per call
    site (indexed by the position in the list for the calls inside a
    loop). *)
Record Frame : Type := mkFrame {
  dt : R;
  keys : Keys;
  ticks : nat -> Z;
  jitter : nat -> R * R;
  mystery_draw : nat -> nat;
  side : Z;
  shark_u : R;
  powerup_ux : R;
  powerup_uy : R;
  powerup_draw : nat;
  bubble_u : nat -> R
}.

(** [save_high_scores]: the ranked list is written to the file. *)
Definition save_high_scores (g : Game) : Game :=
  with_saved g (high_scores g :: saved g).

(** [update_high_scores]. *)
Definition update_high_scores (g : Game) : Game :=
  let new_score := Entry.mk (username g) (py_int (score g)) in
  let g := with_high_scores g (high_scores g ++ [new_score]) in
  let g := with_high_scores g (sort_desc (high_scores g)) in
  let g := with_high_scores g (firstn 5 (high_scores g)) in
  save_high_scores g.

Definition set_difficulty (level : Z) (g : Game) : Game :=
  with_difficulty g level.

Definition enter_name_mode (g : Game) : Game :=
  with_state (with_username_input g []) NAME_INPUT.

(** [start_game]; [clock] gives the readings of [get_ticks()]. *)
Definition start_game (clock : nat -> Z) (g : Game) : Game :=
  let g := with_state g PLAYING in
  let g := with_score g 0 in
  let g := with_game_time g 0 in
  let g :=
    with_player g
      (Fish.set_position (player g)
         (Vec (SCREEN_WIDTH / 2) (SCREEN_HEIGHT / 2))) in
  let g := with_sharks g [] in
  let g := with_powerups g [] in
  let g := with_last_spawn_time g (clock 0%nat) in
  with_last_powerup_spawn_time g (clock 1%nat).

Definition restart_game (clock : nat -> Z) (g : Game) : Game :=
  start_game clock g.

(** [spawn_shark]; [side] is the value of [random.randint(0, 3)] and [u]
    the draw behind the one [random.uniform] of the chosen branch. *)
Definition spawn_shark (side : Z) (u : R) (g : Game) : Game :=
  let xy :=
    if (side =? 0)%Z then (-100, uniform 0 SCREEN_HEIGHT u)
    else if (side =? 1)%Z then (SCREEN_WIDTH + 100, uniform 0 SCREEN_HEIGHT u)
    else if (side =? 2)%Z then (uniform 0 SCREEN_WIDTH u, -100)
    else (uniform 0 SCREEN_WIDTH u, SCREEN_HEIGHT + 100) in
  let speed := 150 + IZR (difficulty g) * 40 in
  let shark := Shark.init (fst xy) (snd xy) speed in
  with_sharks g (sharks g ++ [shark]).

(** [spawn_powerup]. *)
Definition spawn_powerup (ux uy : R) (k : nat) (g : Game) : Game :=
  let x := uniform 50 (SCREEN_WIDTH - 50) ux in
  let y := uniform 50 (SCREEN_HEIGHT - 50) uy in
  let types :=
    [Powerup.invincible; Powerup.slow; Powerup.score; Powerup.mystery] in
  let powerup_type := choice Powerup.invincible types k in
  let powerup := Powerup.init x y powerup_type in
  with_powerups g (powerups g ++ [powerup]).

(** *** [update]: the pass over the pursuers *)

(** The body of [for shark in self.sharks]. *)
Definition shark_body (f : Frame) (target : Vector2) (i : nat)
    (shark : Shark.t) (g : Game) : Shark.t * Game :=
  let shark := Shark.update (dt f) target (jitter f i) shark in
  if collides_with shark (player g) && negb (Fish.invincible (player g))
  then (shark, with_state (update_high_scores g) GAMEOVER)
  else (shark, g).

(** The loop, from the [i]-th pursuer on: the pursuers as they are
    after the pass, and the game. *)
Fixpoint shark_loop (f : Frame) (target : Vector2) (i : nat)
    (todo : list Shark.t) (g : Game) : list Shark.t * Game :=
  match todo with
  | [] => ([], g)
  | shark :: todo' =>
      let (shark', g') := shark_body f target i shark g in
      let (done, g'') := shark_loop f target (S i) todo' g' in
      (shark' :: done, g'')
  end.

Definition shark_pass (f : Frame) (g : Game) : Game :=
  let player_center := center (get_rect (player g) 0) in
  let target := Vec (IZR (fst player_center)) (IZR (snd player_center)) in
  let (moved, g) := shark_loop f target 0 (sharks g) g in
  with_sharks g moved.

(** *** [update]: the pass over the power-ups *)

Definition make_invincible (g : Game) : Game :=
  with_player g
    (Fish.set_invincible_timer (Fish.set_invincible (player g) true) 3).

Definition slow_sharks (g : Game) : Game :=
  with_sharks g (map Shark.slow (sharks g)).

Definition add_bonus (g : Game) : Game := with_score g (score g + 200).

(** The effect of a power-up of a given type; [k] is the index drawn by
    [random.choice] when the type is ["mystery"]. *)
Definition apply_effect (k : nat) (ty : Powerup.kind) (g : Game) : Game :=
  match ty with
  | Powerup.invincible => make_invincible g
  | Powerup.slow => slow_sharks g
  | Powerup.score => add_bonus g
  | Powerup.mystery =>
      let effect :=
        choice Powerup.invincible
          [Powerup.invincible; Powerup.slow; Powerup.score] k in
      match effect with
      | Powerup.invincible => make_invincible g
      | Powerup.slow => slow_sharks g
      | Powerup.score => add_bonus g
      | Powerup.mystery => g
      end
  end.

(** The body of [for powerup in self.powerups]. *)
Definition powerup_body (f : Frame) (i : nat) (powerup : Powerup.t)
    (g : Game) : Powerup.t * Game :=
  if collides_with powerup (player g)
  then (Powerup.deactivate powerup,
        apply_effect (mystery_draw f i) (Powerup.type powerup) g)
  else (powerup, g).

Fixpoint powerup_loop (f : Frame) (i : nat) (todo : list Powerup.t)
    (g : Game) : list Powerup.t * Game :=
  match todo with
  | [] => ([], g)
  | powerup :: todo' =>
      let (powerup', g') := powerup_body f i powerup g in
      let (done, g'') := powerup_loop f (S i) todo' g' in
      (powerup' :: done, g'')
  end.

Definition powerup_pass (f : Frame) (g : Game) : Game :=
  let (seen, g) := powerup_loop f 0 (powerups g) g in
  with_powerups g (filter Powerup.active seen).

(** *** [update]: the spawner and the bubbles *)

(** The two timer tests; [get_ticks()] is read once per test and once
    more after each spawn. *)
Definition spawner (f : Frame) (g : Game) : Game :=
  let (n, g) :=
    if (ticks f 0%nat - last_spawn_time g >? spawn_rate g)%Z
    then (2%nat,
          with_last_spawn_time (spawn_shark (side f) (shark_u f) g)
            (ticks f 1%nat))
    else (1%nat, g) in
  if (ticks f n - last_powerup_spawn_time g >? powerup_spawn_rate g)%Z
  then with_last_powerup_spawn_time
         (spawn_powerup (powerup_ux f) (powerup_uy f) (powerup_draw f) g)
         (ticks f (S n))
  else g.

Fixpoint bubble_loop (f : Frame) (i : nat) (todo : list Bubble.t)
    : list Bubble.t :=
  match todo with
  | [] => []
  | bubble :: todo' =>
      Bubble.update (dt f) (bubble_u f i) bubble :: bubble_loop f (S i) todo'
  end.

(** *** [SharkChaseGame.update] *)

Definition update (f : Frame) (g : Game) : Game :=
  if GameState_eqb (state g) PLAYING then
    let g := with_game_time g (game_time g + dt f) in
    let g := with_score g (score g + dt f * 20) in
    let g := with_player g (Fish.update (dt f) (keys f) (player g)) in
    let g := shark_pass f g in
    let g := powerup_pass f g in
    let g := spawner f g in
    with_bubbles g (bubble_loop f 0 (bubbles g))
  else g.

(* ================================================================== *)
(** ** Events *)

Inductive Key : Type := K_r | K_m | K_RETURN | K_BACKSPACE | K_other.

(** The events [handle_events] looks at.  [KEYDOWN] carries the key, the
    text [event.unicode] and the value of [event.unicode.isprintable()];
    [MOUSEBUTTONDOWN] carries the button and the position. *)
Inductive Event : Type :=
| QUIT
| KEYDOWN (key : Key) (unicode : str) (isprintable : bool)
| MOUSEMOTION (pos : Z * Z)
| MOUSEBUTTONDOWN (button : Z) (pos : Z * Z)
| OTHER.

Definition run_action (clock : nat -> Z) (a : Action) (g : Game) : Game :=
  match a with
  | set_difficulty_to level => set_difficulty level g
  | enter_name_mode_action => enter_name_mode g
  | start_game_action => start_game clock g
  end.

(** The [GAMEOVER] block of the event loop. *)
Definition on_gameover (clock : nat -> Z) (e : Event) (g : Game) : Game :=
  match e with
  | KEYDOWN key _ _ =>
      let g := match key with K_r => restart_game clock g | _ => g end in
      match key with K_m => with_state g MENU | _ => g end
  | _ => g
  end.

(** The [MENU] block. *)
Definition on_menu (clock : nat -> Z) (e : Event) (g : Game) : Game :=
  let g :=
    match e with
    | MOUSEMOTION pos =>
        with_buttons g
          (map (fun b => Button.set_is_hovered b (Button.contains b pos))
               (buttons g))
    | _ => g
    end in
  match e with
  | MOUSEBUTTONDOWN 1 pos =>
      fold_left
        (fun g b =>
           if Button.contains b pos then run_action clock (Button.action b) g
           else g)
        (buttons g) g
  | _ => g
  end.

(** The [NAME_INPUT] block. *)
Definition on_name_input (e : Event) (g : Game) : Game :=
  match e with
  | KEYDOWN K_RETURN _ _ =>
      let g :=
        with_username g
          (if truthy (strip (username_input g))
           then strip (username_input g)
           else lit "Player") in
      with_state g MENU
  | KEYDOWN K_BACKSPACE _ _ =>
      with_username_input g (removelast (username_input g))
  | KEYDOWN _ unicode isprintable =>
      if isprintable then with_username_input g (username_input g ++ unicode)
      else g
  | _ => g
  end.

(** The body of [for event in pygame.event.get()]; [None] when the
    process exits on [QUIT]. *)
Definition handle_event (clock : nat -> Z) (e : Event) (g : Game)
    : option Game :=
  match e with
  | QUIT => None
  | _ =>
      let g :=
        if GameState_eqb (state g) GAMEOVER then on_gameover clock e g
        else g in
      let g :=
        if GameState_eqb (state g) MENU then on_menu clock e g else g in
      let g :=
        if GameState_eqb (state g) NAME_INPUT then on_name_input e g
        else g in
      Some g
  end.

(** [handle_events]. *)
Fixpoint handle_events (clock : nat -> Z) (events : list Event) (g : Game)
    : option Game :=
  match events with
  | [] => Some g
  | e :: events' =>
      match handle_event clock e g with
      | Some g' => handle_events clock events' g'
      | None => None
      end
  end.

(* ================================================================== *)
(** ** [SharkChaseGame.__init__], [draw] and [run] *)

(** The five buttons of the menu, as [__init__] makes them. *)
Definition menu_buttons : list Button.t :=
  [Button.mk (mkRect 300 150 200 50) (set_difficulty_to 1) false;
   Button.mk (mkRect 300 220 200 50) (set_difficulty_to 2) false;
   Button.mk (mkRect 300 290 200 50) (set_difficulty_to 3) false;
   Button.mk (mkRect 300 360 200 50) enter_name_mode_action false;
   Button.mk (mkRect 300 430 200 50) start_game_action false].

(** [__init__], given the two readings of the clock, the bubbles it
    draws and the ranked list it loads. *)
Definition new_game (clock : nat -> Z) (bubbles : list Bubble.t)
    (high_scores : list Entry.t) : Game :=
  mkGame MENU (lit "Player") [] 1 2000 (clock 0%nat) 0 0 10000 (clock 1%nat)
    (Fish.init (SCREEN_WIDTH / 2) (SCREEN_HEIGHT / 2)) [] [] bubbles
    high_scores menu_buttons [].

(** [draw_menu] moves the buttons: [button.rect.y = 280 + i * 70]. *)
Fixpoint place_buttons (i : Z) (bs : list Button.t) : list Button.t :=
  match bs with
  | [] => []
  | b :: bs' =>
      Button.mk (mkRect (rx (Button.rect b)) (280 + i * 70)
                        (rw (Button.rect b)) (rh (Button.rect b)))
                (Button.action b) (Button.is_hovered b)
      :: place_buttons (i + 1) bs'
  end.

(** What [draw] writes to the game: in the menu, the place of the
    buttons. *)
Definition draw (g : Game) : Game :=
  if GameState_eqb (state g) MENU
  then with_buttons g (place_buttons 0 (buttons g))
  else g.

(** One turn of the loop of [run]: the events, the update, the drawing;
    [None] when the process exits. *)
Definition run_turn (clock : nat -> Z) (events : list Event) (f : Frame)
    (g : Game) : option Game :=
  match handle_events clock events g with
  | Some g' => Some (draw (update f g'))
  | None => None
  end.

(* ================================================================== *)
(** ** Notions used in the statements *)

(** The four directions as [Fish.update] tests them: an arrow key or its
    letter. *)
Definition held_left (k : Keys) : bool := K_LEFT k || K_a k.

Definition held_right (k : Keys) : bool := K_RIGHT k || K_d k.

Definition held_up (k : Keys) : bool := K_UP k || K_w k.

Definition held_down (k : Keys) : bool := K_DOWN k || K_s k.

(** The raw intent vector: the velocity as [steer] leaves it, before it
    is normalised. *)
Definition intent (k : Keys) (self : Fish.t) : Vector2 :=
  Fish.velocity (Fish.steer k self).

(** The order of the ranked list: a score not smaller than the next;
    and the entries of one score. *)
Definition score_ge (a b : Entry.t) : Prop :=
  (Entry.score b <= Entry.score a)%Z.

Definition same_score (k : Z) (e : Entry.t) : bool :=
  (Entry.score e =? k)%Z.

(** Whether a power-up is still in the live set after the pass: it was
    active and does not overlap the player. *)
Definition stays (p : Fish.t) (q : Powerup.t) : bool :=
  Powerup.active q && negb (collides_with q p).

(** The effects of the power-ups that overlap the player [p], applied
    in the order of the list, from the [i]-th on. *)
Fixpoint effects (f : Frame) (p : Fish.t) (i : nat) (todo : list Powerup.t)
    (g : Game) : Game :=
  match todo with
  | [] => g
  | q :: todo' =>
      effects f p (S i) todo'
        (if collides_with q p
         then apply_effect (mystery_draw f i) (Powerup.type q) g
         else g)
  end.

(** The parts of [update] in the playing state.  The start of a frame:
    the clock of the run, the score of the time
    survived, and the player. *)
Definition advance (f : Frame) (g : Game) : Game :=
  let g := with_game_time g (game_time g + dt f) in
  let g := with_score g (score g + dt f * 20) in
  with_player g (Fish.update (dt f) (keys f) (player g)).

(** What follows the pass over the pursuers. *)
Definition later_passes (f : Frame) (g : Game) : Game :=
  let g := powerup_pass f g in
  let g := spawner f g in
  with_bubbles g (bubble_loop f 0 (bubbles g)).

(** The two statements run for a pursuer that overlaps a player who is
    not invincible. *)
Definition end_run (g : Game) : Game :=
  with_state (update_high_scores g) GAMEOVER.

(** The point the pursuers head for: the centre of the player's box. *)
Definition target_of (g : Game) : Vector2 :=
  Vec (IZR (fst (center (get_rect (player g) 0))))
      (IZR (snd (center (get_rect (player g) 0)))).

(** The pursuers after their move, from the [i]-th on. *)
Fixpoint moved_sharks (f : Frame) (target : Vector2) (i : nat)
    (todo : list Shark.t) : list Shark.t :=
  match todo with
  | [] => []
  | shark :: todo' =>
      Shark.update (dt f) target (jitter f i) shark
      :: moved_sharks f target (S i) todo'
  end.

(** How many of the moved pursuers overlap the player [p]. *)
Definition overlapping (p : Fish.t) (moved : list Shark.t) : nat :=
  List.length (filter (fun shark => collides_with shark p) moved).

(** How many times the pass over the pursuers ends the run. *)
Definition lethal_count (f : Frame) (g : Game) : nat :=
  if Fish.invincible (player g) then 0%nat
  else overlapping (player g)
         (moved_sharks f (target_of g) 0 (sharks g)).

(** The three fields the end of a run writes. *)
Definition with_ranking (g : Game) (st : GameState) (hs : list Entry.t)
    (sv : list (list Entry.t)) : Game :=
  with_saved (with_high_scores (with_state g st) hs) sv.

(* ================================================================== *)
(** ** Sample inputs *)

(** Some states of the keyboard. *)
Definition keys_none : Keys :=
  mkKeys false false false false false false false false.

Definition keys_left : Keys :=
  mkKeys true false false false false false false false.

Definition keys_left_and_right : Keys :=
  mkKeys true false true false false false false false.

Definition keys_up_and_down : Keys :=
  mkKeys false false false false true false true false.

Definition keys_right_and_down : Keys :=
  mkKeys false false true false false false true false.

(** A player, a power-up lying on it, and a pursuer with a power-up
    inside its eroded box. *)
Definition fish_c : Fish.t := Fish.init 350 265.

Definition gem : Powerup.t := Powerup.init 390 290 Powerup.score.

Definition pursuer_c : Shark.t := Shark.init 300 200 190.

Definition turtle : Powerup.t := Powerup.init 350 220 Powerup.slow.

(** A clock that reads 0. *)
Definition clock0 : nat -> Z := fun _ => 0%Z.

(** A key press that types one character. *)
Definition typed (c : string) : Event := KEYDOWN K_other (lit c) true.

(** The return key: its text is a carriage return, which is not
    printable. *)
Definition return_key : Event := KEYDOWN K_RETURN [13%N] false.

(** A left click on the "Set Name" button, where [draw_menu] puts it. *)
Definition click_set_name : Event := MOUSEBUTTONDOWN 1 (400, 510)%Z.

(** The game in the menu after its first drawing, with no bubbles and
    an empty ranked list. *)
Definition menu_game : Game := draw (new_game clock0 [] []).

(** The events that set the name to "Ann" from the menu, and the events
    that then open the name entry again and confirm an empty buffer. *)
Definition name_ann : list Event :=
  [click_set_name; typed "A"; typed "n"; typed "n"; return_key].

Definition confirm_empty : list Event := [click_set_name; return_key].

(** The same with a buffer of two spaces. *)
Definition confirm_spaces : list Event :=
  [click_set_name; typed " "; typed " "; return_key].

(** A run five seconds old, with the player in the middle of the
    field. *)
Definition playing_game : Game :=
  with_score (with_game_time (start_game clock0 menu_game) 5) 100.

(** A frame of 20 ms with no key held, in which the clock reads [now],
    every draw of [random()] is one half and every drawn index is 0. *)
Definition quiet_frame (now : Z) : Frame :=
  mkFrame (1 / 50) keys_none (fun _ => now) (fun _ => (1 / 2, 1 / 2))
    (fun _ => 0%nat) 0 (1 / 2) (1 / 2) (1 / 2) 0 (fun _ => 1 / 2).

(** Two pursuers of the easy level just above the centre of the
    player. *)
Definition pursuer_a : Shark.t := Shark.init 450 300 190.

Definition pursuer_b : Shark.t := Shark.init 450 290 190.

Definition two_pursuers : Game :=
  with_sharks playing_game [pursuer_a; pursuer_b].

(** One pursuer and a score bonus on the player. *)
Definition bonus : Powerup.t := Powerup.init 440 320 Powerup.score.

Definition pursuer_and_bonus : Game :=
  with_powerups (with_sharks playing_game [pursuer_a]) [bonus].

(** The entry of that run: the score 100.4 of the frame, truncated. *)
Definition player_entry : Entry.t := Entry.mk (lit "Player") 100.

(* ================================================================== *)
(** ** Further notions and inputs *)

(** Whether some direction key is held. *)
Definition held_any (k : Keys) : bool :=
  held_left k || held_right k || held_up k || held_down k.

(** Successive calls of [Fish.update] with the same time step, one for
    each state of the keyboard in [ks]. *)
Fixpoint fish_frames (dt : R) (ks : list Keys) (self : Fish.t) : Fish.t :=
  match ks with
  | [] => self
  | k :: ks' => fish_frames dt ks' (Fish.update dt k self)
  end.

(** A player that has just picked up an invincibility power-up. *)
Definition star_fish : Fish.t :=
  Fish.set_invincible_timer (Fish.set_invincible (Fish.init 400 300) true) 3.

(** Whether the levels that the buttons can set are the three levels of
    the menu. *)
Definition level_ok (b : Button.t) : bool :=
  match Button.action b with
  | set_difficulty_to level => ((1 <=? level) && (level <=? 3))%Z
  | _ => true
  end.

(** The game keeps a level of the menu, and its buttons set no other. *)
Definition levels_ok (g : Game) : Prop :=
  forallb level_ok (buttons g) = true /\ (1 <= difficulty g <= 3)%Z.

(** The buttons that contain a point. *)
Definition hit (point : Z * Z) (bs : list Button.t) : list Button.t :=
  filter (fun b => Button.contains b point) bs.

(** A block of the event loop: [if self.state == st: ...]. *)
Definition in_state (st : GameState) (block : Game -> Game) (g : Game)
    : Game :=
  if GameState_eqb (state g) st then block g else g.

(** The entry that [update_high_scores] makes for the game. *)
Definition new_entry (g : Game) : Entry.t :=
  Entry.mk (username g) (py_int (score g)).

(** [Bubble()], given the value of [random.randint(2, 6)] and the two
    draws behind [random.uniform]. *)
Definition new_bubble (radius : Z) (ux us : R) : Bubble.t :=
  Bubble.mk radius (uniform 0 SCREEN_WIDTH ux)
    (SCREEN_HEIGHT + IZR radius) (uniform 30 80 us).

(** A bubble as [Bubble()] makes them, somewhere in its column: between
    the place where it starts, just below the field, and the place where
    it has just left the field at the top. *)
Definition bubble_ok (b : Bubble.t) : Prop :=
  (2 <= Bubble.radius b <= 6)%Z /\
  0 <= Bubble.x b <= SCREEN_WIDTH /\
  30 <= Bubble.speed b <= 80 /\
  - IZR (Bubble.radius b) <= Bubble.y b
    <= SCREEN_HEIGHT + IZR (Bubble.radius b).

(** A ranked list of three entries, and a run that scored 0. *)
Definition board3 : list Entry.t :=
  [Entry.mk (lit "Ann") 300; Entry.mk (lit "Bo") 100; Entry.mk (lit "Cy") 0].

Definition zero_run : Game :=
  with_high_scores (with_score playing_game 0) board3.

(* ================================================================== *)
(** ** More notions and inputs *)

(** What [json.load] made of a file that does not hold a ranked list: it
    raised, or it returned a value that is not of the expected shape. *)
Definition malformed (load : outcome json) : bool :=
  match load with
  | Raise _ => true
  | Return v => negb (expected_shape v)
  end.

(** Whether a key of the horizontal axis, and of the vertical axis, is
    held. *)
Definition held_x (k : Keys) : bool := held_left k || held_right k.

Definition held_y (k : Keys) : bool := held_up k || held_down k.

(** The length of the vector (1, 1), by which [normalize_ip] divides a
    diagonal intent. *)
Definition diagonal : R := V2.length (Vec 1 1).


(** A pursuer of the easy level above the player, whose eroded box ends
    where the eroded box of the player begins; and a run with this
    pursuer and with a score bonus that was spawned on the player. *)
Definition pursuer_d : Shark.t := Shark.init 450 246 190.

Definition closing_in : Game :=
  with_powerups (with_sharks playing_game [pursuer_d]) [bonus].

(** The effect of a power-up that is picked up: its own type, and for
    a mystery the one of the three effects that [random.choice] draws. *)
Definition resolved (k : nat) (ty : Powerup.kind) : Powerup.kind :=
  match ty with
  | Powerup.mystery =>
      choice Powerup.invincible
        [Powerup.invincible; Powerup.slow; Powerup.score] k
  | _ => ty
  end.

Definition is_score (ty : Powerup.kind) : bool :=
  match ty with
  | Powerup.score => true
  | _ => false
  end.

(** How many of the power-ups, from the [i]-th on, overlap the player
    [p] and give the score bonus. *)
Fixpoint bonuses (f : Frame) (p : Fish.t) (i : nat) (todo : list Powerup.t)
    : nat :=
  match todo with
  | [] => 0
  | q :: todo' =>
      (if collides_with q p
          && is_score (resolved (mystery_draw f i) (Powerup.type q))
       then 1 else 0)
      + bonuses f p (S i) todo'
  end.

(** A pursuer far above the player, and a run with it; and the run with
    the two pursuers on the player, for a player who has just picked up
    an invincibility power-up. *)
Definition pursuer_far : Shark.t := Shark.init 450 100 190.

Definition far_away : Game := with_sharks playing_game [pursuer_far].

Definition shielded : Game :=
  with_player two_pursuers
    (Fish.set_invincible_timer
       (Fish.set_invincible (player two_pursuers) true) 3).

(* ================================================================== *)
(** * Properties *)

(** ** Arithmetic of the primitives *)

Lemma Rltb_true (a b : R) : a < b -> Rltb a b = true.
Proof. intros Hab. unfold Rltb. destruct (Rlt_dec a b); [reflexivity | contradiction]. Qed.

Lemma Rltb_false (a b : R) : b <= a -> Rltb a b = false.
Proof. intros Hba. unfold Rltb. destruct (Rlt_dec a b); [lra | reflexivity]. Qed.

Lemma Rleb_true (a b : R) : a <= b -> Rleb a b = true.
Proof. intros Hab. unfold Rleb. destruct (Rle_dec a b); [reflexivity | contradiction]. Qed.

Lemma Rleb_false (a b : R) : b < a -> Rleb a b = false.
Proof. intros Hba. unfold Rleb. destruct (Rle_dec a b); [lra | reflexivity]. Qed.

(** [int] of a non-negative number is its floor. *)
Lemma py_int_floor (x : R) (z : Z) :
  IZR z <= x < IZR z + 1 -> 0 <= x -> py_int x = z.
Proof.
  intros [Hlo Hhi] Hx. unfold py_int.
  destruct (Rlt_dec x 0) as [Hneg | _]; [lra |].
  symmetry. apply Int_part_spec. lra.
Qed.

(** [int] of a non-positive number is the opposite of the floor of its
    opposite. *)
Lemma py_int_ceil (x : R) (z : Z) :
  IZR z - 1 < x <= IZR z -> x <= 0 -> py_int x = z.
Proof.
  intros [Hlo Hhi] Hx. unfold py_int.
  destruct (Rlt_dec x 0) as [Hneg | Hpos].
  - assert (Hz : (- z)%Z = Int_part (- x)).
    { apply Int_part_spec. rewrite opp_IZR. lra. }
    rewrite <- Hz. lia.
  - assert (x = 0) by lra. subst x.
    assert (Hz0 : z = 0%Z).
    { destruct (Z.lt_trichotomy z 0) as [Hlt | [Heq | Hgt]]; [| exact Heq |].
      - apply IZR_lt in Hlt. lra.
      - assert (1 <= z)%Z as Hge by lia. apply IZR_le in Hge. lra. }
    subst z. symmetry. apply Int_part_spec. lra.
Qed.

Lemma py_int_IZR (x : R) (z : Z) : x = IZR z -> py_int x = z.
Proof.
  intros ->. destruct (Rle_dec 0 (IZR z)) as [Hpos | Hneg].
  - apply py_int_floor; lra.
  - apply py_int_ceil; lra.
Qed.

(** [int(x)] is 0 exactly on the open interval (-1, 1). *)
Lemma py_int_zero (x : R) : -1 < x < 1 -> py_int x = 0%Z.
Proof.
  intros [Hlo Hhi]. destruct (Rle_dec 0 x) as [Hpos | Hneg].
  - apply py_int_floor; lra.
  - apply py_int_ceil; lra.
Qed.





Lemma py_min_le_l (a b : R) : py_min a b <= a.
Proof. unfold py_min, Rltb. destruct (Rlt_dec b a); lra. Qed.

Lemma py_max_ge_l (a b : R) : a <= py_max a b.
Proof. unfold py_max, Rltb. destruct (Rlt_dec a b); lra. Qed.

Lemma py_max_le (a b c : R) : a <= c -> b <= c -> py_max a b <= c.
Proof. intros Ha Hb. unfold py_max, Rltb. destruct (Rlt_dec a b); lra. Qed.

(** A value already inside the interval is left alone by the clamp. *)
Lemma clamp_inside (hi x : R) :
  0 <= x <= hi -> py_max 0 (py_min hi x) = x.
Proof.
  intros [Hlo Hhi]. unfold py_max, py_min, Rltb.
  destruct (Rlt_dec x hi); destruct (Rlt_dec 0 _); lra.
Qed.



(** The clamp always lands in the interval, when there is one. *)
Lemma clamp_range (hi x : R) :
  0 <= hi -> 0 <= py_max 0 (py_min hi x) <= hi.
Proof.
  intros Hhi. split.
  - apply py_max_ge_l.
  - apply py_max_le; [exact Hhi | apply py_min_le_l].
Qed.

(** ** The rectangle test *)

(** A rectangle of negative width and height against one of positive
    width and height: the first is read as the span that ends at its
    corner. *)
Lemma colliderect_mirrored (a b : Rect) :
  (rw a < 0)%Z -> (rh a < 0)%Z -> (0 < rw b)%Z -> (0 < rh b)%Z ->
  colliderect a b = true <->
  (rx a + rw a < rx b + rw b /\ ry a + rh a < ry b + rh b /\
   rx b < rx a /\ ry b < ry a)%Z.
Proof.
  intros Hwa Hha Hwb Hhb. unfold colliderect.
  destruct (rw a =? 0)%Z eqn:E1; [apply Z.eqb_eq in E1; lia |].
  destruct (rh a =? 0)%Z eqn:E2; [apply Z.eqb_eq in E2; lia |].
  destruct (rw b =? 0)%Z eqn:E3; [apply Z.eqb_eq in E3; lia |].
  destruct (rh b =? 0)%Z eqn:E4; [apply Z.eqb_eq in E4; lia |].
  cbn [orb]. rewrite !andb_true_iff, !Z.ltb_lt, !Z.gtb_lt. lia.
Qed.

(** A rectangle of zero width or height collides with nothing. *)
Lemma colliderect_empty (a b : Rect) :
  (rw a = 0 \/ rh a = 0 \/ rw b = 0 \/ rh b = 0)%Z ->
  colliderect a b = false.
Proof.
  intros Hz. unfold colliderect.
  destruct (rw a =? 0)%Z eqn:E1; [reflexivity |].
  destruct (rh a =? 0)%Z eqn:E2; [reflexivity |].
  destruct (rw b =? 0)%Z eqn:E3; [reflexivity |].
  destruct (rh b =? 0)%Z eqn:E4; [reflexivity |].
  apply Z.eqb_neq in E1, E2, E3, E4. lia.
Qed.

(** [get_rect] of an object whose coordinates, extent and shrink are
    whole numbers. *)
Lemma get_rect_whole {A : Type} `{GameObject A} (self : A) (x y w h s : Z) :
  position self = Vec (IZR x) (IZR y) ->
  size self = Vec (IZR w) (IZR h) ->
  get_rect self (IZR s) = mkRect (x + s) (y + s) (w - 2 * s) (h - 2 * s).
Proof.
  intros Hp Hs. unfold get_rect. rewrite Hp, Hs. cbn [vx vy].
  f_equal; apply py_int_IZR;
    rewrite ?plus_IZR, ?minus_IZR, ?mult_IZR; reflexivity.
Qed.

(** The eroded box of a Power-up is 6 wide and 6 high, backwards. *)
Lemma powerup_rect (p : Powerup.t) :
  Powerup.size p = Vec 30 30 ->
  rw (get_rect p 18) = (-6)%Z /\ rh (get_rect p 18) = (-6)%Z.
Proof.
  intros Hs. unfold get_rect. cbn [rw rh size Powerup_GameObject].
  rewrite Hs. cbn [vx vy]. split; apply py_int_IZR; lra.
Qed.

(** ** The player update *)

Lemma steer_velocity (k : Keys) (self : Fish.t) :
  intent k self =
  Vec (if held_right k then 1 else if held_left k then -1 else 0)
      (if held_down k then 1 else if held_up k then -1 else 0).
Proof.
  unfold intent, Fish.steer, held_right, held_left, held_down, held_up.
  destruct (K_LEFT k || K_a k), (K_RIGHT k || K_d k),
    (K_UP k || K_w k), (K_DOWN k || K_s k); reflexivity.
Qed.

Lemma steer_direction (k : Keys) (self : Fish.t) :
  Fish.direction (Fish.steer k self) =
  if held_right k then 1%Z
  else if held_left k then (-1)%Z else Fish.direction self.
Proof.
  unfold Fish.steer, held_right, held_left.
  destruct (K_LEFT k || K_a k), (K_RIGHT k || K_d k),
    (K_UP k || K_w k), (K_DOWN k || K_s k); reflexivity.
Qed.

(** [steer] and [heading] touch the velocity and the facing only. *)
Lemma steer_frame (k : Keys) (self : Fish.t) :
  Fish.position (Fish.steer k self) = Fish.position self /\
  Fish.size (Fish.steer k self) = Fish.size self /\
  Fish.speed (Fish.steer k self) = Fish.speed self /\
  Fish.invincible (Fish.steer k self) = Fish.invincible self /\
  Fish.invincible_timer (Fish.steer k self) = Fish.invincible_timer self.
Proof.
  unfold Fish.steer.
  destruct (K_LEFT k || K_a k), (K_RIGHT k || K_d k),
    (K_UP k || K_w k), (K_DOWN k || K_s k); repeat split; reflexivity.
Qed.

Lemma heading_frame (k : Keys) (self : Fish.t) :
  Fish.position (Fish.heading k self) = Fish.position self /\
  Fish.size (Fish.heading k self) = Fish.size self /\
  Fish.speed (Fish.heading k self) = Fish.speed self /\
  Fish.invincible (Fish.heading k self) = Fish.invincible self /\
  Fish.invincible_timer (Fish.heading k self) = Fish.invincible_timer self.
Proof.
  unfold Fish.heading.
  destruct (Rltb 0 (V2.length (Fish.velocity (Fish.steer k self))));
    cbn; apply steer_frame.
Qed.

(** The position after [update]: the stepped position, clamped on each
    axis. *)
Lemma update_position (dt : R) (k : Keys) (self : Fish.t) :
  Fish.position (Fish.update dt k self) =
  let moved :=
    V2.add (Fish.position self) (Fish.step dt (Fish.heading k self)) in
  Vec (py_max 0 (py_min (SCREEN_WIDTH - vx (Fish.size self)) (vx moved)))
      (py_max 0 (py_min (SCREEN_HEIGHT - vy (Fish.size self)) (vy moved))).
Proof.
  destruct (heading_frame k self) as (Hp & Hs & _).
  unfold Fish.update.
  match goal with
  | |- context [if Fish.invincible ?f then _ else _] =>
      destruct (Fish.invincible f)
  end.
  - match goal with
    | |- context [if Rleb ?a ?b then _ else _] => destruct (Rleb a b)
    end; cbn; rewrite Hp, Hs; reflexivity.
  - cbn. rewrite Hp, Hs. reflexivity.
Qed.

Lemma update_size (dt : R) (k : Keys) (self : Fish.t) :
  Fish.size (Fish.update dt k self) = Fish.size self.
Proof.
  destruct (heading_frame k self) as (_ & Hs & _).
  unfold Fish.update.
  match goal with
  | |- context [if Fish.invincible ?f then _ else _] =>
      destruct (Fish.invincible f)
  end.
  - match goal with
    | |- context [if Rleb ?a ?b then _ else _] => destruct (Rleb a b)
    end; cbn; exact Hs.
  - cbn. exact Hs.
Qed.

Lemma heading_velocity (k : Keys) (self : Fish.t) :
  Fish.velocity (Fish.heading k self) =
  if Rltb 0 (V2.length (intent k self)) then V2.normalize (intent k self)
  else intent k self.
Proof.
  unfold Fish.heading, intent.
  destruct (Rltb 0 (V2.length (Fish.velocity (Fish.steer k self))));
    reflexivity.
Qed.

(** The length of a vector with whole coordinates whose squares sum to a
    square. *)
Lemma length_whole (a b c : R) :
  0 <= c -> a * a + b * b = c * c -> V2.length (Vec a b) = c.
Proof.
  intros Hc Hsq. unfold V2.length. cbn [vx vy]. rewrite Hsq.
  apply sqrt_square; exact Hc.
Qed.

(** The player that stands still: no key held, so the position is kept
    wherever it lies inside the field. *)
Lemma update_still (dt : R) (self : Fish.t) :
  0 <= vx (Fish.position self) <= SCREEN_WIDTH - vx (Fish.size self) ->
  0 <= vy (Fish.position self) <= SCREEN_HEIGHT - vy (Fish.size self) ->
  Fish.position (Fish.update dt keys_none self) = Fish.position self.
Proof.
  intros Hx Hy. rewrite update_position. cbv zeta.
  unfold Fish.step. rewrite heading_velocity.
  destruct (heading_frame keys_none self) as (_ & _ & Hsp & _).
  rewrite Hsp, steer_velocity. cbn [held_right held_left held_down held_up
    keys_none K_LEFT K_a K_RIGHT K_d K_UP K_w K_DOWN K_s orb].
  rewrite (length_whole 0 0 0) by lra.
  rewrite Rltb_false by lra.
  unfold V2.add, V2.scale. cbn [vx vy].
  replace (vx (Fish.position self) + 0 * Fish.speed self * dt)
    with (vx (Fish.position self)) by lra.
  replace (vy (Fish.position self) + 0 * Fish.speed self * dt)
    with (vy (Fish.position self)) by lra.
  rewrite !clamp_inside by assumption.
  destruct (Fish.position self); reflexivity.
Qed.

(** C2, as the code has it: the key tests run in sequence and a later
    test overwrites an earlier one, so that of two opposite keys held
    together the later-tested one decides.  The intent is +1 on the x
    axis whenever right is held (also with left held), and +1 on the y
    axis whenever down is held (also with up held); the facing follows
    the x axis. *)
Theorem C2_later_key_decides (k : Keys) (self : Fish.t) :
  vx (intent k self) =
    (if held_right k then 1 else if held_left k then -1 else 0) /\
  vy (intent k self) =
    (if held_down k then 1 else if held_up k then -1 else 0) /\
  Fish.direction (Fish.steer k self) =
    (if held_right k then 1%Z
     else if held_left k then (-1)%Z else Fish.direction self).
Proof.
  rewrite steer_velocity, steer_direction. cbn [vx vy]. auto.
Qed.

(** C2 fails as stated: with left and right held together the x intent
    is 1, not 0; with up and down held together the y intent is 1. *)
Lemma C2_opposite_keys_do_not_cancel :
  held_left keys_left_and_right = true /\
  held_right keys_left_and_right = true /\
  vx (intent keys_left_and_right (Fish.init 400 300)) = 1 /\
  vx (intent keys_left_and_right (Fish.init 400 300)) <> 0 /\
  held_up keys_up_and_down = true /\
  held_down keys_up_and_down = true /\
  vy (intent keys_up_and_down (Fish.init 400 300)) = 1.
Proof.
  repeat split; try reflexivity.
  cbn. lra.
Qed.

(** C10: after [update] the player's box lies inside the field, for
    every time step and every combination of keys, as long as the box
    fits in the field at all (the player is 100 by 70). *)
Theorem C10_player_stays_in_field (dt : R) (k : Keys) (self : Fish.t) :
  vx (Fish.size self) <= SCREEN_WIDTH ->
  vy (Fish.size self) <= SCREEN_HEIGHT ->
  0 <= vx (Fish.position (Fish.update dt k self))
    <= SCREEN_WIDTH - vx (Fish.size (Fish.update dt k self)) /\
  0 <= vy (Fish.position (Fish.update dt k self))
    <= SCREEN_HEIGHT - vy (Fish.size (Fish.update dt k self)).
Proof.
  intros Hw Hh. rewrite update_position, update_size. cbv zeta. cbn [vx vy].
  split; apply clamp_range; lra.
Qed.

(** The statement of C10 at the player in the middle of the field who
    holds left for a frame of 20 ms. *)
Lemma C10_player_stays_in_field_witness :
  vx (Fish.size (Fish.init 400 300)) <= SCREEN_WIDTH /\
  vy (Fish.size (Fish.init 400 300)) <= SCREEN_HEIGHT /\
  0 <= vx (Fish.position (Fish.update (1 / 50) keys_left (Fish.init 400 300)))
    <= SCREEN_WIDTH -
       vx (Fish.size (Fish.update (1 / 50) keys_left (Fish.init 400 300))) /\
  0 <= vy (Fish.position (Fish.update (1 / 50) keys_left (Fish.init 400 300)))
    <= SCREEN_HEIGHT -
       vy (Fish.size (Fish.update (1 / 50) keys_left (Fish.init 400 300))).
Proof.
  assert (Hw : vx (Fish.size (Fish.init 400 300)) <= SCREEN_WIDTH)
    by (cbn; unfold SCREEN_WIDTH; lra).
  assert (Hh : vy (Fish.size (Fish.init 400 300)) <= SCREEN_HEIGHT)
    by (cbn; unfold SCREEN_HEIGHT; lra).
  split; [exact Hw | split; [exact Hh |]].
  exact (C10_player_stays_in_field (1 / 50) keys_left (Fish.init 400 300) Hw Hh).
Defined.

(** The vector (1, 1) is longer than 1, and a component of the
    normalised diagonal lies strictly between 0 and 1. *)
Lemma diagonal_unit :
  1 < diagonal /\ 0 < 1 / diagonal < 1 /\
  1 / diagonal * (1 / diagonal) + 1 / diagonal * (1 / diagonal) = 1.
Proof.
  unfold diagonal, V2.length. cbn [vx vy].
  set (L := sqrt (1 * 1 + 1 * 1)).
  assert (HLL : L * L = 2) by (unfold L; rewrite sqrt_sqrt; lra).
  assert (HL0 : 0 <= L) by apply sqrt_pos.
  assert (HL1 : 1 < L) by nra.
  assert (HcL : 1 / L * L = 1) by (field; lra).
  assert (Hc0 : 0 < 1 / L) by (apply Rdiv_lt_0_compat; lra).
  split; [exact HL1 |]. split; [split; [exact Hc0 | nra] |].
  assert (H2 : 1 / L * (1 / L) * (L * L) = 1).
  { replace (1 / L * (1 / L) * (L * L)) with (1 / L * L * (1 / L * L)) by ring.
    rewrite HcL. ring. }
  rewrite HLL in H2. lra.
Qed.

Lemma normalize_none :
  (if Rltb 0 (V2.length (Vec 0 0)) then V2.normalize (Vec 0 0) else Vec 0 0)
  = Vec 0 0.
Proof.
  rewrite (length_whole 0 0 0) by lra. rewrite Rltb_false by lra. reflexivity.
Qed.

Lemma normalize_axis_x (a : R) :
  a = 1 \/ a = -1 ->
  (if Rltb 0 (V2.length (Vec a 0)) then V2.normalize (Vec a 0) else Vec a 0)
  = Vec a 0.
Proof.
  intros Ha. unfold V2.normalize.
  rewrite (length_whole a 0 1) by (destruct Ha as [-> | ->]; lra).
  rewrite Rltb_true by lra. cbn [vx vy]. f_equal; field.
Qed.

Lemma normalize_axis_y (b : R) :
  b = 1 \/ b = -1 ->
  (if Rltb 0 (V2.length (Vec 0 b)) then V2.normalize (Vec 0 b) else Vec 0 b)
  = Vec 0 b.
Proof.
  intros Hb. unfold V2.normalize.
  rewrite (length_whole 0 b 1) by (destruct Hb as [-> | ->]; lra).
  rewrite Rltb_true by lra. cbn [vx vy]. f_equal; field.
Qed.

Lemma normalize_diagonal (a b : R) :
  a = 1 \/ a = -1 -> b = 1 \/ b = -1 ->
  (if Rltb 0 (V2.length (Vec a b)) then V2.normalize (Vec a b) else Vec a b)
  = Vec (a / diagonal) (b / diagonal).
Proof.
  intros Ha Hb. destruct diagonal_unit as (HL & _).
  assert (Hlen : V2.length (Vec a b) = diagonal).
  { unfold diagonal, V2.length. cbn [vx vy]. f_equal.
    destruct Ha as [-> | ->], Hb as [-> | ->]; ring. }
  unfold V2.normalize. rewrite Hlen, Rltb_true by lra. reflexivity.
Qed.

(** The velocity after the normalisation: the intent itself when at
    most one axis is active, and the intent divided by the length of
    (1, 1) when both are. *)
Lemma heading_velocity_cases (k : Keys) (self : Fish.t) :
  Fish.velocity (Fish.heading k self) =
  if held_x k && held_y k
  then Vec (vx (intent k self) / diagonal) (vy (intent k self) / diagonal)
  else intent k self.
Proof.
  rewrite heading_velocity, steer_velocity. unfold held_x, held_y.
  destruct (held_left k), (held_right k), (held_up k), (held_down k);
    cbn [orb andb vx vy];
    first [ apply normalize_none
          | apply normalize_axis_x; auto
          | apply normalize_axis_y; auto
          | apply normalize_diagonal; auto ].
Qed.

(** The intent on an axis is 0 exactly when no key of the axis is held,
    and 1 or -1 otherwise. *)
Lemma intent_axes (k : Keys) (self : Fish.t) :
  (if held_x k then vx (intent k self) = 1 \/ vx (intent k self) = -1
   else vx (intent k self) = 0) /\
  (if held_y k then vy (intent k self) = 1 \/ vy (intent k self) = -1
   else vy (intent k self) = 0).
Proof.
  rewrite steer_velocity. unfold held_x, held_y.
  destruct (held_left k), (held_right k), (held_up k), (held_down k);
    cbn [orb vx vy]; auto.
Qed.

(** The velocity after the normalisation, in what does not depend on
    rounding: it is the intent when at most one axis is active; with
    both axes active its components have the sign of the intent, the
    same size, and that size lies strictly between 0 and 1; the sum of
    its squares is never above 1. *)
Lemma heading_velocity_facts (k : Keys) (self : Fish.t) :
  (vy (intent k self) = 0 ->
   Fish.velocity (Fish.heading k self) = intent k self) /\
  (vx (intent k self) = 0 ->
   Fish.velocity (Fish.heading k self) = intent k self) /\
  (vx (intent k self) <> 0 -> vy (intent k self) <> 0 ->
   Rabs (vx (Fish.velocity (Fish.heading k self)))
     = Rabs (vy (Fish.velocity (Fish.heading k self))) /\
   0 < Rabs (vx (Fish.velocity (Fish.heading k self))) < 1 /\
   0 < vx (Fish.velocity (Fish.heading k self)) * vx (intent k self) /\
   0 < vy (Fish.velocity (Fish.heading k self)) * vy (intent k self)) /\
  Rabs (vx (Fish.velocity (Fish.heading k self))) <= 1 /\
  Rabs (vy (Fish.velocity (Fish.heading k self))) <= 1 /\
  vx (Fish.velocity (Fish.heading k self))
    * vx (Fish.velocity (Fish.heading k self))
  + vy (Fish.velocity (Fish.heading k self))
    * vy (Fish.velocity (Fish.heading k self)) <= 1.
Proof.
  rewrite heading_velocity_cases.
  destruct (intent_axes k self) as [Hx Hy].
  destruct diagonal_unit as (HL & [Hc0 Hc1] & Hcc).
  set (c := 1 / diagonal) in *.
  assert (Hdiv : forall a, a / diagonal = a * c)
    by (intros a; unfold c; field; lra).
  destruct (intent k self) as [a b]. cbn [vx vy] in *.
  destruct (held_x k), (held_y k); cbn [andb vx vy]; rewrite ?Hdiv.
  - (* both axes *)
    destruct Hx as [-> | ->], Hy as [-> | ->];
      repeat split; intros; try lra;
      repeat match goal with
             | |- context [Rabs ?x] =>
                 first [ rewrite (Rabs_pos_eq x) by lra
                       | rewrite (Rabs_left x) by lra ]
             end; nra.
  - subst b. destruct Hx as [-> | ->];
      repeat split; intros; try reflexivity; try lra;
      repeat match goal with
             | |- context [Rabs ?x] =>
                 first [ rewrite (Rabs_pos_eq x) by lra
                       | rewrite (Rabs_left x) by lra ]
             end; try lra; exfalso; lra.
  - subst a. destruct Hy as [-> | ->];
      repeat split; intros; try reflexivity; try lra;
      repeat match goal with
             | |- context [Rabs ?x] =>
                 first [ rewrite (Rabs_pos_eq x) by lra
                       | rewrite (Rabs_left x) by lra ]
             end; try lra; exfalso; lra.
  - subst a b. repeat split; intros; try reflexivity; try lra;
      rewrite ?Rabs_R0; lra.
Qed.


Lemma Rabs_scaled (v m : R) : Rabs v <= 1 -> 0 <= m -> Rabs (v * m) <= m.
Proof.
  intros Hv Hm. rewrite Rabs_mult, (Rabs_pos_eq m) by exact Hm.
  pose proof (Rabs_pos v). nra.
Qed.




(** ** Name entry *)

Lemma lstrip_nil (s : str) : lstrip s = [] <-> forallb isspace s = true.
Proof.
  induction s as [| c s IH]; cbn; [tauto |].
  destruct (isspace c); cbn; [exact IH |]. split; discriminate.
Qed.

Lemma lstrip_all_space (s : str) :
  forallb isspace (lstrip s) = true -> lstrip s = [].
Proof.
  induction s as [| c s IH]; cbn; [reflexivity |].
  destruct (isspace c) eqn:Ec; [exact IH |].
  cbn. rewrite Ec. discriminate.
Qed.

Lemma forallb_rev {A : Type} (p : A -> bool) (l : list A) :
  forallb p (rev l) = forallb p l.
Proof.
  induction l as [| a l IH]; cbn; [reflexivity |].
  rewrite forallb_app, IH. cbn. rewrite andb_true_r. apply andb_comm.
Qed.

(** The stripped text is empty exactly when the text is empty or all
    white space. *)
Lemma strip_nil (s : str) : strip s = [] <-> forallb isspace s = true.
Proof.
  unfold strip, rstrip. split.
  - intros Hnil.
    assert (Hr : lstrip (rev (lstrip s)) = []).
    { rewrite <- (rev_involutive (lstrip (rev (lstrip s)))), Hnil.
      reflexivity. }
    apply lstrip_nil in Hr. rewrite forallb_rev in Hr.
    apply lstrip_nil, lstrip_all_space, Hr.
  - intros Hall. apply lstrip_nil in Hall. rewrite Hall. reflexivity.
Qed.

Lemma truthy_strip (s : str) :
  truthy (strip s) = negb (forallb isspace s).
Proof.
  destruct (forallb isspace s) eqn:Hall.
  - apply strip_nil in Hall. rewrite Hall. reflexivity.
  - destruct (strip s) eqn:Hs; [| reflexivity].
    apply strip_nil in Hs. congruence.
Qed.

(** C3, as the code has it: on confirm in the name entry the game goes
    back to the menu; when the buffer is empty or all white space the
    name becomes the default "Player" (the name held before is not
    kept); otherwise it becomes the trimmed buffer. *)
Theorem C3_confirm_sets_default_or_trimmed (clock : nat -> Z) (text : str)
    (isprintable : bool) (g : Game) :
  state g = NAME_INPUT ->
  exists g',
    handle_event clock (KEYDOWN K_RETURN text isprintable) g = Some g' /\
    state g' = MENU /\
    username g' =
      (if forallb isspace (username_input g) then lit "Player"
       else strip (username_input g)).
Proof.
  intros Hst.
  exists (on_name_input (KEYDOWN K_RETURN text isprintable) g). split.
  - unfold handle_event. cbv zeta.
    repeat (rewrite Hst; cbn [GameState_eqb]). reflexivity.
  - cbn. split; [reflexivity |].
    rewrite truthy_strip. destruct (forallb isspace (username_input g));
      reflexivity.
Qed.

(** The statement of C3 at the name entry opened from the menu, with
    an empty buffer. *)
Lemma C3_confirm_sets_default_or_trimmed_witness :
  state (enter_name_mode menu_game) = NAME_INPUT /\
  exists g',
    handle_event clock0 return_key (enter_name_mode menu_game) = Some g' /\
    state g' = MENU /\
    username g' =
      (if forallb isspace (username_input (enter_name_mode menu_game))
       then lit "Player"
       else strip (username_input (enter_name_mode menu_game))).
Proof.
  split; [reflexivity |].
  apply (C3_confirm_sets_default_or_trimmed clock0 [13%N] false
           (enter_name_mode menu_game)).
  reflexivity.
Defined.

(** C3 fails as stated: after the name was set to "Ann", opening the
    name entry again and confirming an empty buffer, or a buffer of two
    spaces, leaves the name "Player", not "Ann". *)
Lemma C3_previous_name_is_not_kept :
  option_map username (handle_events clock0 name_ann menu_game)
    = Some (lit "Ann") /\
  option_map state (handle_events clock0 name_ann menu_game) = Some MENU /\
  option_map username
    (handle_events clock0 (name_ann ++ confirm_empty) menu_game)
    = Some (lit "Player") /\
  option_map username
    (handle_events clock0 (name_ann ++ confirm_spaces) menu_game)
    = Some (lit "Player") /\
  lit "Player" <> lit "Ann".
Proof.
  repeat split; try reflexivity. discriminate.
Qed.

(** ** The score file *)

(** C4, as the code has it: [load_high_scores] has no recovery of its
    own.  Without a score file the ranked list is empty.  With a score
    file whose content does not parse as a ranked list, the result is
    never the empty list: it is what [json.load] made of the file, the
    error raised on text that is not JSON, which is not caught, or the
    value returned, of whatever shape. *)
Theorem C4_malformed_file_is_passed_on (load : outcome json) :
  malformed load = true ->
  load_high_scores absent = Return (JList []) /\
  load_high_scores (present load) = load /\
  load_high_scores (present load) <> Return (JList []) /\
  (forall e : exn, load = Raise e -> load_high_scores (present load) = Raise e).
Proof.
  intros Hm. cbn [load_high_scores].
  assert (Hne : load <> Return (JList [])).
  { intros ->. cbn in Hm. discriminate Hm. }
  repeat split; [exact Hne | intros e He; exact He].
Qed.

(** The statement of C4 at a file that holds a JSON object with a name
    and a score, not a list of such objects. *)
Lemma C4_malformed_file_is_passed_on_witness :
  malformed
    (Return (JDict [(lit "name", JStr (lit "Ann")); (lit "score", JInt 7)]))
    = true /\
  load_high_scores
    (present
       (Return (JDict [(lit "name", JStr (lit "Ann")); (lit "score", JInt 7)])))
    <> Return (JList []).
Proof.
  split; [reflexivity |].
  apply (C4_malformed_file_is_passed_on
           (Return (JDict [(lit "name", JStr (lit "Ann"));
                           (lit "score", JInt 7)]))).
  reflexivity.
Defined.

(** C4 fails as stated: on a file that is not JSON the error is raised,
    and on a file holding a JSON object, which is not of the expected
    shape, the object is returned, not the empty list. *)
Lemma C4_malformed_file_is_not_recovered :
  load_high_scores (present (Raise JSONDecodeError)) = Raise JSONDecodeError /\
  load_high_scores (present (Raise JSONDecodeError)) <> Return (JList []) /\
  expected_shape (JDict []) = false /\
  load_high_scores (present (Return (JDict []))) = Return (JDict []) /\
  load_high_scores (present (Return (JDict []))) <> Return (JList []).
Proof. repeat split; try reflexivity; discriminate. Qed.

(** ** The score ranking *)

Lemma insert_desc_perm (e : Entry.t) (l : list Entry.t) :
  Permutation (insert_desc e l) (e :: l).
Proof.
  induction l as [| e' l IH]; cbn; [reflexivity |].
  destruct (Entry.score e <? Entry.score e')%Z; [| reflexivity].
  rewrite IH. apply perm_swap.
Qed.

Lemma sort_desc_perm (l : list Entry.t) : Permutation (sort_desc l) l.
Proof.
  induction l as [| e l IH]; cbn; [reflexivity |].
  rewrite insert_desc_perm. constructor. exact IH.
Qed.

Lemma insert_desc_sorted (e : Entry.t) (l : list Entry.t) :
  StronglySorted score_ge l -> StronglySorted score_ge (insert_desc e l).
Proof.
  induction 1 as [| e' l Hs IH Hall]; cbn.
  - repeat constructor.
  - destruct (Entry.score e <? Entry.score e')%Z eqn:Hlt.
    + apply Z.ltb_lt in Hlt. constructor; [exact IH |].
      apply Forall_forall. intros x Hx.
      apply (Permutation_in _ (insert_desc_perm e l)) in Hx.
      destruct Hx as [<- | Hx].
      * unfold score_ge. lia.
      * rewrite Forall_forall in Hall. apply Hall, Hx.
    + apply Z.ltb_ge in Hlt. constructor.
      * constructor; assumption.
      * constructor; [exact Hlt |].
        eapply Forall_impl; [| exact Hall].
        unfold score_ge. intros x Hx. lia.
Qed.

Lemma sort_desc_sorted (l : list Entry.t) :
  StronglySorted score_ge (sort_desc l).
Proof.
  induction l as [| e l IH]; cbn; [constructor |].
  apply insert_desc_sorted, IH.
Qed.

(** Insertion keeps the entries of any one score in their order. *)
Lemma insert_desc_stable (k : Z) (e : Entry.t) (l : list Entry.t) :
  filter (same_score k) (insert_desc e l) = filter (same_score k) (e :: l).
Proof.
  induction l as [| e' l IH]; [reflexivity |].
  cbn [insert_desc].
  destruct (Entry.score e <? Entry.score e')%Z eqn:Hlt; [| reflexivity].
  apply Z.ltb_lt in Hlt.
  cbn [filter] in *. rewrite IH. unfold same_score.
  destruct (Entry.score e' =? k)%Z eqn:E1, (Entry.score e =? k)%Z eqn:E2;
    try reflexivity.
  apply Z.eqb_eq in E1, E2. lia.
Qed.

Lemma sort_desc_stable (k : Z) (l : list Entry.t) :
  filter (same_score k) (sort_desc l) = filter (same_score k) l.
Proof.
  induction l as [| e l IH]; [reflexivity |].
  cbn [sort_desc fold_right]. rewrite insert_desc_stable.
  cbn [filter]. fold (sort_desc l). rewrite IH. reflexivity.
Qed.

Lemma firstn_In {A : Type} (n : nat) (l : list A) (x : A) :
  In x (firstn n l) -> In x l.
Proof.
  intros Hx. rewrite <- (firstn_skipn n l). apply in_or_app. left. exact Hx.
Qed.

Lemma firstn_sorted (n : nat) (l : list Entry.t) :
  StronglySorted score_ge l -> StronglySorted score_ge (firstn n l).
Proof.
  intros Hs. revert n. induction Hs as [| e l Hs IH Hall]; intros [| n]; cbn;
    try constructor.
  - apply IH.
  - rewrite Forall_forall in *. intros x Hx. apply Hall.
    eapply firstn_In. exact Hx.
Qed.

(** The ranked list after [update_high_scores]. *)
Lemma update_high_scores_list (g : Game) :
  high_scores (update_high_scores g) =
  firstn 5 (sort_desc
              (high_scores g ++ [Entry.mk (username g) (py_int (score g))])).
Proof. reflexivity. Qed.

(** C8: after a submission the ranked list has at most 5 entries, is
    sorted by descending score, and its entries of any one score are the
    first of the entries of that score in the order in which they were
    put in (the entries held before, then the new one). *)
Theorem C8_ranked_list_after_submit (g : Game) :
  (List.length (high_scores (update_high_scores g)) <= 5)%nat /\
  StronglySorted score_ge (high_scores (update_high_scores g)) /\
  forall k : Z, exists later : list Entry.t,
    filter (same_score k)
      (high_scores g ++ [Entry.mk (username g) (py_int (score g))])
    = filter (same_score k) (high_scores (update_high_scores g)) ++ later.
Proof.
  rewrite update_high_scores_list.
  set (l := high_scores g ++ [Entry.mk (username g) (py_int (score g))]).
  split; [apply firstn_le_length |].
  split; [apply firstn_sorted, sort_desc_sorted |].
  intros k. exists (filter (same_score k) (skipn 5 (sort_desc l))).
  rewrite <- filter_app, firstn_skipn. symmetry. apply sort_desc_stable.
Qed.

(** ** The frame *)

Lemma update_playing (f : Frame) (g : Game) :
  state g = PLAYING ->
  update f g = later_passes f (shark_pass f (advance f g)).
Proof. intros Hst. unfold update. rewrite Hst. reflexivity. Qed.

Lemma update_not_playing (f : Frame) (g : Game) :
  state g <> PLAYING -> update f g = g.
Proof.
  intros Hst. unfold update. destruct (state g); try reflexivity.
  contradiction Hst; reflexivity.
Qed.

(** The end of a run writes the state, the ranked list and the file,
    and nothing else. *)
Lemma end_run_ranking (g : Game) :
  end_run g =
  with_ranking g GAMEOVER (high_scores (end_run g)) (saved (end_run g)).
Proof. reflexivity. Qed.

Lemma iter_end_run_ranking (n : nat) (g : Game) :
  Nat.iter n end_run g =
  with_ranking g (state (Nat.iter n end_run g))
    (high_scores (Nat.iter n end_run g)) (saved (Nat.iter n end_run g)).
Proof.
  induction n as [| n IH]; cbn [Nat.iter nat_rect].
  - destruct g; reflexivity.
  - rewrite end_run_ranking. rewrite IH at 1. reflexivity.
Qed.


Lemma iter_end_run_player (n : nat) (g : Game) :
  player (Nat.iter n end_run g) = player g.
Proof. rewrite iter_end_run_ranking. reflexivity. Qed.

(** The pass over the pursuers: every pursuer moves, and the run is
    ended once for each moved pursuer that overlaps the player, unless
    the player is invincible. *)
Lemma shark_loop_spec (f : Frame) (target : Vector2) (todo : list Shark.t) :
  forall (i : nat) (g : Game),
    shark_loop f target i todo g =
    (moved_sharks f target i todo,
     Nat.iter
       (if Fish.invincible (player g) then 0%nat
        else overlapping (player g) (moved_sharks f target i todo))
       end_run g).
Proof.
  induction todo as [| shark todo IH]; intros i g.
  - cbn. destruct (Fish.invincible (player g)); reflexivity.
  - cbn [shark_loop moved_sharks]. unfold shark_body.
    unfold overlapping. cbn [filter].
    destruct (collides_with (Shark.update (dt f) target (jitter f i) shark)
                (player g)) eqn:Hc;
      destruct (Fish.invincible (player g)) eqn:Hi; cbn [andb negb].
    + rewrite IH, Hi. reflexivity.
    + rewrite IH. fold (end_run g).
      change (player (end_run g)) with (player g). rewrite Hi.
      cbn [List.length]. unfold overlapping.
      rewrite <- Nat.iter_succ_r. reflexivity.
    + rewrite IH, Hi. reflexivity.
    + rewrite IH, Hi. reflexivity.
Qed.

Lemma shark_pass_spec (f : Frame) (g : Game) :
  shark_pass f g =
  with_sharks (Nat.iter (lethal_count f g) end_run g)
    (moved_sharks f (target_of g) 0 (sharks g)).
Proof.
  unfold shark_pass. fold (target_of g). rewrite shark_loop_spec.
  reflexivity.
Qed.

(** The later passes do not look at the state, the ranked list or the
    file, and do not write them. *)
Lemma apply_effect_ranking (k : nat) (ty : Powerup.kind) (g : Game)
    (st : GameState) (hs : list Entry.t) (sv : list (list Entry.t)) :
  apply_effect k ty (with_ranking g st hs sv) =
  with_ranking (apply_effect k ty g) st hs sv.
Proof.
  unfold apply_effect.
  destruct ty; try reflexivity.
  destruct (choice Powerup.invincible
              [Powerup.invincible; Powerup.slow; Powerup.score] k);
    reflexivity.
Qed.

Lemma powerup_loop_ranking (f : Frame) (st : GameState) (hs : list Entry.t)
    (sv : list (list Entry.t)) (todo : list Powerup.t) :
  forall (i : nat) (g : Game),
    powerup_loop f i todo (with_ranking g st hs sv) =
    (fst (powerup_loop f i todo g),
     with_ranking (snd (powerup_loop f i todo g)) st hs sv).
Proof.
  induction todo as [| p todo IH]; intros i g; [reflexivity |].
  cbn [powerup_loop]. unfold powerup_body.
  change (player (with_ranking g st hs sv)) with (player g).
  destruct (collides_with p (player g)).
  - rewrite apply_effect_ranking, IH.
    destruct (powerup_loop f (S i) todo
                (apply_effect (mystery_draw f i) (Powerup.type p) g));
      reflexivity.
  - rewrite IH. destruct (powerup_loop f (S i) todo g); reflexivity.
Qed.

Lemma powerup_pass_ranking (f : Frame) (g : Game) (st : GameState)
    (hs : list Entry.t) (sv : list (list Entry.t)) :
  powerup_pass f (with_ranking g st hs sv) =
  with_ranking (powerup_pass f g) st hs sv.
Proof.
  unfold powerup_pass.
  change (powerups (with_ranking g st hs sv)) with (powerups g).
  rewrite powerup_loop_ranking.
  destruct (powerup_loop f 0 (powerups g) g); reflexivity.
Qed.

Lemma spawner_ranking (f : Frame) (g : Game) (st : GameState)
    (hs : list Entry.t) (sv : list (list Entry.t)) :
  spawner f (with_ranking g st hs sv) = with_ranking (spawner f g) st hs sv.
Proof.
  unfold spawner.
  change (last_spawn_time (with_ranking g st hs sv))
    with (last_spawn_time g).
  change (spawn_rate (with_ranking g st hs sv)) with (spawn_rate g).
  destruct (ticks f 0%nat - last_spawn_time g >? spawn_rate g)%Z;
    cbn [last_powerup_spawn_time powerup_spawn_rate with_ranking with_state
         with_high_scores with_saved with_last_spawn_time spawn_shark
         with_sharks];
    match goal with
    | |- context [if ?c then _ else _] => destruct c
    end; reflexivity.
Qed.

Lemma later_passes_ranking (f : Frame) (g : Game) (st : GameState)
    (hs : list Entry.t) (sv : list (list Entry.t)) :
  later_passes f (with_ranking g st hs sv) =
  with_ranking (later_passes f g) st hs sv.
Proof.
  unfold later_passes. cbv zeta.
  rewrite powerup_pass_ranking, spawner_ranking. reflexivity.
Qed.

Lemma with_ranking_fields (g : Game) (st : GameState) (hs : list Entry.t)
    (sv : list (list Entry.t)) :
  state (with_ranking g st hs sv) = st /\
  high_scores (with_ranking g st hs sv) = hs /\
  saved (with_ranking g st hs sv) = sv.
Proof. repeat split. Qed.

Lemma with_ranking_same (g : Game) :
  with_ranking g (state g) (high_scores g) (saved g) = g.
Proof. destruct g; reflexivity. Qed.

Lemma later_passes_state (f : Frame) (g : Game) :
  state (later_passes f g) = state g /\
  high_scores (later_passes f g) = high_scores g /\
  saved (later_passes f g) = saved g.
Proof.
  rewrite <- (with_ranking_same g) at 1 3 5.
  rewrite later_passes_ranking. repeat split.
Qed.

Lemma with_sharks_ranking (g : Game) (st : GameState) (hs : list Entry.t)
    (sv : list (list Entry.t)) (l : list Shark.t) :
  with_sharks (with_ranking g st hs sv) l =
  with_ranking (with_sharks g l) st hs sv.
Proof. reflexivity. Qed.

(** A frame in the playing state, whole: the later passes run on the
    game as the pass over the pursuers leaves it, and what that pass did
    to the state, the ranked list and the file is carried through. *)
Lemma update_spec (f : Frame) (g : Game) :
  state g = PLAYING ->
  update f g =
  with_ranking
    (later_passes f
       (with_sharks (advance f g)
          (moved_sharks f (target_of (advance f g)) 0 (sharks g))))
    (state (Nat.iter (lethal_count f (advance f g)) end_run (advance f g)))
    (high_scores
       (Nat.iter (lethal_count f (advance f g)) end_run (advance f g)))
    (saved (Nat.iter (lethal_count f (advance f g)) end_run (advance f g))).
Proof.
  intros Hst. rewrite (update_playing f g Hst), shark_pass_spec.
  rewrite iter_end_run_ranking, with_sharks_ranking, later_passes_ranking.
  reflexivity.
Qed.

(** ** Frames worked out *)

(** A pursuer straight above its target, with both draws one half (no
    jitter), moves straight down by [speed * dt]. *)
Lemma shark_update_down (dt tx ty sy sp : R) (sz : Vector2) :
  sy < ty ->
  Shark.update dt (Vec tx ty) (1 / 2, 1 / 2) (Shark.mk (Vec tx sy) sz sp) =
  Shark.mk (Vec tx (sy + sp * dt)) sz sp.
Proof.
  intros Hlt. unfold Shark.update.
  cbn [Shark.position Shark.size Shark.speed fst snd].
  set (d := V2.sub (Vec tx ty) (Vec tx sy)).
  assert (Hd : V2.length d = ty - sy).
  { unfold d, V2.sub. cbn [vx vy]. apply length_whole; [lra | ring]. }
  rewrite Hd, Rltb_true by lra.
  assert (Hn : V2.add (V2.normalize d)
                 (Vec (uniform (-3 / 10) (3 / 10) (1 / 2))
                      (uniform (-3 / 10) (3 / 10) (1 / 2))) = Vec 0 1).
  { unfold V2.normalize. rewrite Hd.
    unfold d, V2.add, V2.sub, uniform. cbn [vx vy]. f_equal; field; lra. }
  rewrite Hn, (length_whole 0 1 1), Rltb_true by lra.
  unfold V2.normalize. rewrite (length_whole 0 1 1) by lra.
  unfold V2.add, V2.scale. cbn [vx vy]. f_equal. f_equal; field.
Qed.

(** The player of [playing_game] after a quiet frame. *)
Lemma quiet_player_position (now : Z) (g : Game) :
  Fish.position (player g) = Vec (SCREEN_WIDTH / 2) (SCREEN_HEIGHT / 2) ->
  Fish.size (player g) = Vec 100 70 ->
  Fish.position (player (advance (quiet_frame now) g)) = Vec 400 300 /\
  Fish.size (player (advance (quiet_frame now) g)) = Vec 100 70.
Proof.
  intros Hp Hs. unfold advance. cbn [player with_player dt keys quiet_frame
    with_score with_game_time].
  rewrite update_size, Hs. split; [| reflexivity].
  rewrite update_still; rewrite Hp, ?Hs; cbn [vx vy];
    unfold SCREEN_WIDTH, SCREEN_HEIGHT; try lra.
  f_equal; lra.
Qed.

Lemma quiet_player_rects (now : Z) (g : Game) :
  Fish.position (player g) = Vec (SCREEN_WIDTH / 2) (SCREEN_HEIGHT / 2) ->
  Fish.size (player g) = Vec 100 70 ->
  get_rect (player (advance (quiet_frame now) g)) 0 = mkRect 400 300 100 70 /\
  get_rect (player (advance (quiet_frame now) g)) 18 = mkRect 418 318 64 34.
Proof.
  intros Hp Hs. destruct (quiet_player_position now g Hp Hs) as [Hp' Hs'].
  split.
  - apply (get_rect_whole _ 400 300 100 70 0); assumption.
  - apply (get_rect_whole _ 400 300 100 70 18); assumption.
Qed.

Lemma quiet_target (now : Z) (g : Game) :
  Fish.position (player g) = Vec (SCREEN_WIDTH / 2) (SCREEN_HEIGHT / 2) ->
  Fish.size (player g) = Vec 100 70 ->
  target_of (advance (quiet_frame now) g) = Vec 450 335.
Proof.
  intros Hp Hs. destruct (quiet_player_rects now g Hp Hs) as [Hr _].
  unfold target_of. rewrite Hr. reflexivity.
Qed.

(** The two sample pursuers after their move, and their eroded boxes. *)
Lemma pursuer_a_moved :
  Shark.update (1 / 50) (Vec 450 335) (1 / 2, 1 / 2) pursuer_a =
  Shark.mk (Vec 450 (300 + 190 * (1 / 50))) (Vec 140 90) 190.
Proof. apply shark_update_down. lra. Qed.

Lemma pursuer_b_moved :
  Shark.update (1 / 50) (Vec 450 335) (1 / 2, 1 / 2) pursuer_b =
  Shark.mk (Vec 450 (290 + 190 * (1 / 50))) (Vec 140 90) 190.
Proof. apply shark_update_down. lra. Qed.

Lemma pursuer_a_rect :
  get_rect (Shark.mk (Vec 450 (300 + 190 * (1 / 50))) (Vec 140 90) 190) 18 =
  mkRect 468 321 104 54.
Proof.
  unfold get_rect. cbn [position size Shark_GameObject Shark.position
    Shark.size vx vy].
  f_equal; apply py_int_floor; lra.
Qed.

Lemma pursuer_b_rect :
  get_rect (Shark.mk (Vec 450 (290 + 190 * (1 / 50))) (Vec 140 90) 190) 18 =
  mkRect 468 311 104 54.
Proof.
  unfold get_rect. cbn [position size Shark_GameObject Shark.position
    Shark.size vx vy].
  f_equal; apply py_int_floor; lra.
Qed.

Lemma update_invincible_false (dt : R) (k : Keys) (self : Fish.t) :
  Fish.invincible self = false ->
  Fish.invincible (Fish.update dt k self) = false.
Proof.
  intros Hi. destruct (heading_frame k self) as (_ & _ & _ & Hinv & _).
  unfold Fish.update. cbv zeta.
  cbn [Fish.invincible Fish.set_position]. rewrite Hinv, Hi.
  cbn [Fish.invincible Fish.set_position]. rewrite Hinv. exact Hi.
Qed.

Lemma iter_twice {A : Type} (f : A -> A) (x : A) :
  Nat.iter 2 f x = f (f x).
Proof. reflexivity. Qed.


Lemma with_sharks_player (g : Game) (l : list Shark.t) :
  player (with_sharks g l) = player g.
Proof. reflexivity. Qed.

Lemma end_run_fields (g : Game) :
  high_scores (end_run g) =
    firstn 5 (sort_desc
                (high_scores g ++ [Entry.mk (username g) (py_int (score g))])) /\
  saved (end_run g) = high_scores (end_run g) :: saved g /\
  username (end_run g) = username g /\
  score (end_run g) = score g.
Proof. repeat split. Qed.

(** The score of [playing_game] after a frame of 20 ms is 100.4, which
    [int] turns into 100. *)
Lemma quiet_score (now : Z) (g : Game) :
  score g = 100 -> py_int (score (advance (quiet_frame now) g)) = 100%Z.
Proof.
  intros Hs. unfold advance.
  cbn [score with_player with_score with_game_time dt quiet_frame].
  rewrite Hs. apply py_int_floor; lra.
Qed.

Lemma two_pursuers_lethal :
  lethal_count (quiet_frame 1000) (advance (quiet_frame 1000) two_pursuers)
  = 2%nat.
Proof.
  assert (Hp : Fish.position (player two_pursuers)
               = Vec (SCREEN_WIDTH / 2) (SCREEN_HEIGHT / 2)) by reflexivity.
  assert (Hs : Fish.size (player two_pursuers) = Vec 100 70) by reflexivity.
  destruct (quiet_player_rects 1000 two_pursuers Hp Hs) as [_ Hr].
  unfold lethal_count.
  rewrite (quiet_target 1000 two_pursuers Hp Hs).
  replace (Fish.invincible (player (advance (quiet_frame 1000) two_pursuers)))
    with false by (symmetry; apply update_invincible_false; reflexivity).
  change (sharks (advance (quiet_frame 1000) two_pursuers))
    with [pursuer_a; pursuer_b].
  cbn [moved_sharks dt jitter quiet_frame].
  rewrite pursuer_a_moved, pursuer_b_moved.
  unfold overlapping, collides_with, overlaps. cbn [filter].
  rewrite pursuer_a_rect, pursuer_b_rect, Hr. reflexivity.
Qed.

(** C1 fails on the code: in a frame in which two pursuers overlap a
    player who is not invincible, the run is ended once for each of
    them, and the ranked list, empty before, holds the entry of the run
    twice; the file is written twice. *)
Theorem C1_two_pursuers_submit_twice :
  state two_pursuers = PLAYING /\
  high_scores two_pursuers = [] /\
  Fish.invincible (player two_pursuers) = false /\
  state (update (quiet_frame 1000) two_pursuers) = GAMEOVER /\
  high_scores (update (quiet_frame 1000) two_pursuers)
    = [player_entry; player_entry] /\
  saved (update (quiet_frame 1000) two_pursuers)
    = [[player_entry; player_entry]; [player_entry]].
Proof.
  split; [reflexivity | split; [reflexivity | split; [reflexivity |]]].
  rewrite (update_spec (quiet_frame 1000) two_pursuers eq_refl).
  rewrite two_pursuers_lethal.
  set (g1 := advance (quiet_frame 1000) two_pursuers).
  match goal with
  | |- context [with_ranking ?g ?st ?hs ?sv] =>
      destruct (with_ranking_fields g st hs sv) as (-> & -> & ->)
  end.
  rewrite (iter_twice end_run g1).
  destruct (end_run_fields g1) as (H1 & S1 & U1 & Sc1).
  destruct (end_run_fields (end_run g1)) as (H2 & S2 & _ & _).
  assert (He : Entry.mk (username g1) (py_int (score g1)) = player_entry).
  { unfold g1. rewrite quiet_score by reflexivity. reflexivity. }
  assert (Hh1 : high_scores (end_run g1) = [player_entry]).
  { rewrite H1, He. reflexivity. }
  assert (Hh2 : high_scores (end_run (end_run g1))
                = [player_entry; player_entry]).
  { rewrite H2, U1, Sc1, He, Hh1. reflexivity. }
  split; [reflexivity |]. split; [exact Hh2 |].
  rewrite S2, Hh2, S1, Hh1. reflexivity.
Qed.

(** ** Power-ups *)

Lemma apply_effect_player_box (k : nat) (ty : Powerup.kind) (g : Game) :
  Fish.position (player (apply_effect k ty g)) = Fish.position (player g) /\
  Fish.size (player (apply_effect k ty g)) = Fish.size (player g).
Proof.
  unfold apply_effect. destruct ty; try (split; reflexivity).
  destruct (choice Powerup.invincible
              [Powerup.invincible; Powerup.slow; Powerup.score] k);
    split; reflexivity.
Qed.

(** The collision test reads the position and the size only. *)
Lemma collides_with_box {A : Type} `{GameObject A} (a : A) (p q : Fish.t) :
  Fish.position p = Fish.position q -> Fish.size p = Fish.size q ->
  collides_with a p = collides_with a q.
Proof.
  intros Hp Hs. unfold collides_with, overlaps, get_rect.
  cbn [position size Fish_GameObject]. rewrite Hp, Hs. reflexivity.
Qed.

(** The loop over the power-ups: the power-ups that overlap the player
    are marked inactive and their effects are applied; the effects do
    not move the player, so every test sees the box the loop began
    with. *)
Lemma powerup_loop_spec (f : Frame) (p : Fish.t) (todo : list Powerup.t) :
  forall (i : nat) (g : Game),
    Fish.position (player g) = Fish.position p ->
    Fish.size (player g) = Fish.size p ->
    powerup_loop f i todo g =
    (map (fun q => if collides_with q p then Powerup.deactivate q else q)
         todo,
     effects f p i todo g).
Proof.
  induction todo as [| q todo IH]; intros i g Hp Hs; [reflexivity |].
  cbn [powerup_loop map effects]. unfold powerup_body.
  rewrite (collides_with_box q _ _ Hp Hs).
  destruct (collides_with q p).
  - destruct (apply_effect_player_box (mystery_draw f i) (Powerup.type q) g)
      as [Hp' Hs'].
    rewrite IH by congruence. reflexivity.
  - rewrite IH by assumption. reflexivity.
Qed.

Lemma filter_marked (p : Fish.t) (l : list Powerup.t) :
  filter Powerup.active
    (map (fun q => if collides_with q p then Powerup.deactivate q else q) l)
  = filter (stays p) l.
Proof.
  induction l as [| q l IH]; [reflexivity |].
  cbn [map filter]. unfold stays at 1.
  destruct (collides_with q p); cbn [Powerup.active Powerup.deactivate].
  - rewrite andb_false_r. exact IH.
  - rewrite andb_true_r. destruct (Powerup.active q); rewrite IH; reflexivity.
Qed.

(** The pass over the power-ups, whole: the effects of the overlapping
    power-ups, and the live set. *)
Lemma powerup_pass_spec (f : Frame) (g : Game) :
  powerup_pass f g =
  with_powerups (effects f (player g) 0 (powerups g) g)
    (filter (stays (player g)) (powerups g)).
Proof.
  unfold powerup_pass.
  rewrite (powerup_loop_spec f (player g)) by reflexivity.
  rewrite filter_marked. reflexivity.
Qed.


(** C5, as the code has it: the eroded box of a Power-up is -6 wide and
    -6 high; the rectangle test reads it as the square of side 6 that
    ends at the corner (int(x + 18), int(y + 18)), and reports an overlap
    with an entity whose eroded box has a positive width and height
    exactly when that square meets the box.  A Power-up that overlaps the
    player is picked up: the pass applies the effects of the overlapping
    Power-ups, and the live set it leaves holds the Power-ups that were
    active and do not overlap the player. *)
Theorem C5_powerup_box_is_mirrored {B : Type} `{GameObject B}
    (p : Powerup.t) (o : B) (f : Frame) (g : Game) :
  Powerup.size p = Vec 30 30 ->
  (0 < rw (get_rect o 18))%Z -> (0 < rh (get_rect o 18))%Z ->
  (rw (get_rect p 18) = (-6)%Z /\ rh (get_rect p 18) = (-6)%Z) /\
  (collides_with p o = true <->
   (rx (get_rect p 18) - 6 < rx (get_rect o 18) + rw (get_rect o 18) /\
    ry (get_rect p 18) - 6 < ry (get_rect o 18) + rh (get_rect o 18) /\
    rx (get_rect o 18) < rx (get_rect p 18) /\
    ry (get_rect o 18) < ry (get_rect p 18))%Z) /\
  powerup_pass f g =
  with_powerups (effects f (player g) 0 (powerups g) g)
    (filter (stays (player g)) (powerups g)).
Proof.
  intros Hs Hw Hh. destruct (powerup_rect p Hs) as [Hpw Hph].
  split; [split; assumption |]. split; [| apply powerup_pass_spec].
  unfold collides_with, overlaps.
  rewrite colliderect_mirrored by lia. rewrite Hpw, Hph. lia.
Qed.

(** The statement of C5 at a Power-up lying on the player. *)
Lemma C5_powerup_box_is_mirrored_witness :
  collides_with gem fish_c = true.
Proof.
  assert (Hr : get_rect fish_c 18 = mkRect 368 283 64 34)
    by (apply (get_rect_whole fish_c 350 265 100 70 18); reflexivity).
  assert (Hg : get_rect gem 18 = mkRect 408 308 (-6) (-6))
    by (apply (get_rect_whole gem 390 290 30 30 18); reflexivity).
  apply (C5_powerup_box_is_mirrored gem fish_c (quiet_frame 1000)
           playing_game).
  - reflexivity.
  - rewrite Hr. reflexivity.
  - rewrite Hr. reflexivity.
  - rewrite Hr, Hg. cbn [rx ry rw rh]. lia.
Defined.

(** C5 fails as stated: a Power-up of 30 by 30 at (390, 290) overlaps
    the player at (350, 265); its eroded box (408, 308, -6, -6) lies
    inside that of the player, (368, 283, 64, 34), and the comparison of
    the older pygame reports the overlap as well. *)
Lemma C5_powerup_overlaps_player :
  Powerup.size gem = Vec 30 30 /\
  get_rect gem 18 = mkRect 408 308 (-6) (-6) /\
  get_rect fish_c 18 = mkRect 368 283 64 34 /\
  collides_with gem fish_c = true /\
  colliderect_legacy (get_rect gem 18) (get_rect fish_c 18) = true.
Proof.
  assert (Hr : get_rect fish_c 18 = mkRect 368 283 64 34)
    by (apply (get_rect_whole fish_c 350 265 100 70 18); reflexivity).
  assert (Hg : get_rect gem 18 = mkRect 408 308 (-6) (-6))
    by (apply (get_rect_whole gem 390 290 30 30 18); reflexivity).
  split; [reflexivity |]. split; [exact Hg |]. split; [exact Hr |].
  unfold collides_with, overlaps. rewrite Hr, Hg. split; reflexivity.
Qed.

(** ** The overlap test with a large shrink *)

(** C6, as the code has it: the overlap test always returns a value, and
    it returns false whenever the shrink is within half a unit of half a
    dimension of either box, so that the eroded width or height is 0
    after truncation; this holds in particular when the shrink is
    exactly half of a dimension.  A larger shrink leaves a negative
    width or height, which the rectangle test mirrors, and the result
    can then be true. *)
Theorem C6_empty_eroded_box_overlaps_nothing {A B : Type} `{GameObject A}
    `{GameObject B} (a : A) (b : B) (s : R) :
  -1 < vx (size a) - 2 * s < 1 \/ -1 < vy (size a) - 2 * s < 1 \/
  -1 < vx (size b) - 2 * s < 1 \/ -1 < vy (size b) - 2 * s < 1 ->
  overlaps a b s = false.
Proof.
  intros Hz. unfold overlaps. apply colliderect_empty.
  unfold get_rect. cbn [rw rh].
  destruct Hz as [Hz | [Hz | [Hz | Hz]]];
    rewrite (py_int_zero _ Hz); auto.
Qed.

(** The statement of C6 at a Power-up and the player with the shrink
    15, exactly half of the 30 of the Power-up. *)
Lemma C6_empty_eroded_box_overlaps_nothing_witness :
  overlaps gem fish_c 15 = false.
Proof.
  apply (C6_empty_eroded_box_overlaps_nothing gem fish_c 15).
  left. cbn. lra.
Defined.

(** C6 fails as stated: with the shrink of 18, which is more than half
    of the 30 of a Power-up, the Power-up at (350, 220) overlaps the
    pursuer at (300, 200); the comparison of the older pygame reports
    the overlap as well. *)
Lemma C6_large_shrink_still_overlaps :
  18 >= vx (Powerup.size turtle) / 2 /\
  get_rect turtle 18 = mkRect 368 238 (-6) (-6) /\
  get_rect pursuer_c 18 = mkRect 318 218 104 54 /\
  overlaps turtle pursuer_c 18 = true /\
  colliderect_legacy (get_rect turtle 18) (get_rect pursuer_c 18) = true.
Proof.
  assert (Hr : get_rect pursuer_c 18 = mkRect 318 218 104 54)
    by (apply (get_rect_whole pursuer_c 300 200 140 90 18); reflexivity).
  assert (Hg : get_rect turtle 18 = mkRect 368 238 (-6) (-6))
    by (apply (get_rect_whole turtle 350 220 30 30 18); reflexivity).
  split; [cbn; lra |]. split; [exact Hg |]. split; [exact Hr |].
  unfold overlaps. rewrite Hr, Hg. split; reflexivity.
Qed.

(** ** The frame that ends the run *)

Lemma with_ranking_rest (g : Game) (st : GameState) (hs : list Entry.t)
    (sv : list (list Entry.t)) :
  score (with_ranking g st hs sv) = score g /\
  sharks (with_ranking g st hs sv) = sharks g /\
  powerups (with_ranking g st hs sv) = powerups g /\
  player (with_ranking g st hs sv) = player g /\
  last_spawn_time (with_ranking g st hs sv) = last_spawn_time g.
Proof. repeat split. Qed.

(** A frame in which no pursuer ends the run. *)
Lemma update_calm (f : Frame) (g : Game) :
  state g = PLAYING -> lethal_count f (advance f g) = 0%nat ->
  update f g =
  later_passes f
    (with_sharks (advance f g)
       (moved_sharks f (target_of (advance f g)) 0 (sharks g))).
Proof.
  intros Hst Hn. rewrite (update_playing f g Hst), shark_pass_spec, Hn.
  reflexivity.
Qed.












(* ================================================================== *)
(** * Further properties of the code *)

(** ** The collision test *)

Lemma colliderect_sym (a b : Rect) : colliderect a b = colliderect b a.
Proof.
  unfold colliderect.
  destruct (rw a =? 0)%Z, (rh a =? 0)%Z, (rw b =? 0)%Z, (rh b =? 0)%Z;
    cbn [orb]; try reflexivity.
  apply eq_true_iff_eq.
  rewrite !andb_true_iff, !Z.ltb_lt, !Z.gtb_lt. lia.
Qed.

(** X1: the collision test is symmetric, for every two game objects and
    every value of the buffer. *)
Theorem overlap_is_symmetric {A B : Type} `{GameObject A} `{GameObject B}
    (a : A) (b : B) (s : R) :
  overlaps a b s = overlaps b a s /\ collides_with a b = collides_with b a.
Proof.
  unfold collides_with, overlaps. split; apply colliderect_sym.
Qed.

(** Two rectangles of positive width and height collide exactly when
    they overlap on both axes, strictly. *)
Lemma colliderect_positive (a b : Rect) :
  (0 < rw a)%Z -> (0 < rh a)%Z -> (0 < rw b)%Z -> (0 < rh b)%Z ->
  colliderect a b = true <->
  (rx a < rx b + rw b /\ rx b < rx a + rw a /\
   ry a < ry b + rh b /\ ry b < ry a + rh a)%Z.
Proof.
  intros Hwa Hha Hwb Hhb. unfold colliderect.
  destruct (rw a =? 0)%Z eqn:E1; [apply Z.eqb_eq in E1; lia |].
  destruct (rh a =? 0)%Z eqn:E2; [apply Z.eqb_eq in E2; lia |].
  destruct (rw b =? 0)%Z eqn:E3; [apply Z.eqb_eq in E3; lia |].
  destruct (rh b =? 0)%Z eqn:E4; [apply Z.eqb_eq in E4; lia |].
  cbn [orb]. rewrite !andb_true_iff, !Z.ltb_lt, !Z.gtb_lt. lia.
Qed.

(** X2: the hit boxes of a pursuer (140 by 90) and the player (100 by
    70) are 104 by 54 and 64 by 34, placed 18 inside the corner; the
    pursuer collides with the player exactly when these two boxes, in
    whole pixels, overlap on both axes; boxes that only touch do not
    collide. *)
Theorem pursuer_hits_player_iff (shark : Shark.t) (fish : Fish.t) :
  Shark.size shark = Vec 140 90 ->
  Fish.size fish = Vec 100 70 ->
  collides_with shark fish = true <->
  (py_int (vx (Shark.position shark) + 18)
     < py_int (vx (Fish.position fish) + 18) + 64 /\
   py_int (vx (Fish.position fish) + 18)
     < py_int (vx (Shark.position shark) + 18) + 104 /\
   py_int (vy (Shark.position shark) + 18)
     < py_int (vy (Fish.position fish) + 18) + 34 /\
   py_int (vy (Fish.position fish) + 18)
     < py_int (vy (Shark.position shark) + 18) + 54)%Z.
Proof.
  intros Hs Hf. unfold collides_with, overlaps, get_rect.
  cbn [position size Shark_GameObject Fish_GameObject]. rewrite Hs, Hf.
  cbn [vx vy].
  rewrite (py_int_IZR (140 - 2 * 18) 104), (py_int_IZR (90 - 2 * 18) 54),
    (py_int_IZR (100 - 2 * 18) 64), (py_int_IZR (70 - 2 * 18) 34) by lra.
  rewrite colliderect_positive by (cbn [rw rh]; lia).
  cbn [rx ry rw rh]. tauto.
Qed.

(** The statement of X2 at a pursuer whose box touches the player's box
    from the right: no collision. *)
Lemma pursuer_hits_player_iff_witness :
  collides_with (Shark.init 414 265 190) (Fish.init 350 265) = false.
Proof.
  destruct (collides_with (Shark.init 414 265 190) (Fish.init 350 265))
    eqn:Hc; [| reflexivity].
  apply (pursuer_hits_player_iff (Shark.init 414 265 190) (Fish.init 350 265)
           eq_refl eq_refl) in Hc.
  cbn [Shark.position Fish.position Shark.init Fish.init vx vy] in Hc.
  rewrite (py_int_IZR (414 + 18) 432), (py_int_IZR (350 + 18) 368) in Hc
    by lra.
  lia.
Defined.

(** ** The player *)

Lemma update_velocity (dt : R) (k : Keys) (self : Fish.t) :
  Fish.velocity (Fish.update dt k self) = Fish.velocity (Fish.heading k self).
Proof.
  unfold Fish.update. cbv zeta.
  match goal with
  | |- context [if Fish.invincible ?f then _ else _] =>
      destruct (Fish.invincible f)
  end.
  - match goal with
    | |- context [if Rleb ?a ?b then _ else _] => destruct (Rleb a b)
    end; reflexivity.
  - reflexivity.
Qed.

Lemma intent_zero_iff (k : Keys) (self : Fish.t) :
  intent k self = Vec 0 0 <-> held_any k = false.
Proof.
  rewrite steer_velocity. unfold held_any.
  destruct (held_left k), (held_right k), (held_up k), (held_down k);
    cbn [orb]; split; intros Heq; try reflexivity; try discriminate;
    injection Heq; intros; lra.
Qed.

(** X3: the velocity that [update] leaves in the player.  It is the
    zero vector when no direction key is held; with one axis active it
    is the raw intent, a component of 1 or -1 along that axis; with both
    axes active its two components have the signs of the intent and the
    same size, strictly between 0 and 1.  The squares of its components
    never sum up to more than 1, so that moving on two axes is not
    faster than moving on one. *)
Theorem velocity_of_the_player (dt : R) (k : Keys) (self : Fish.t) :
  (held_any k = false -> Fish.velocity (Fish.update dt k self) = Vec 0 0) /\
  (vy (intent k self) = 0 ->
   Fish.velocity (Fish.update dt k self) = intent k self) /\
  (vx (intent k self) = 0 ->
   Fish.velocity (Fish.update dt k self) = intent k self) /\
  (vx (intent k self) <> 0 -> vy (intent k self) <> 0 ->
   Rabs (vx (Fish.velocity (Fish.update dt k self)))
     = Rabs (vy (Fish.velocity (Fish.update dt k self))) /\
   0 < Rabs (vx (Fish.velocity (Fish.update dt k self))) < 1 /\
   0 < vx (Fish.velocity (Fish.update dt k self)) * vx (intent k self) /\
   0 < vy (Fish.velocity (Fish.update dt k self)) * vy (intent k self)) /\
  vx (Fish.velocity (Fish.update dt k self))
    * vx (Fish.velocity (Fish.update dt k self))
  + vy (Fish.velocity (Fish.update dt k self))
    * vy (Fish.velocity (Fish.update dt k self)) <= 1.
Proof.
  rewrite update_velocity.
  destruct (heading_velocity_facts k self)
    as (Hx0 & Hy0 & Hd & _ & _ & Hsq).
  split; [| split; [exact Hx0 | split; [exact Hy0 | split; assumption]]].
  intros Hnone. apply (proj2 (intent_zero_iff k self)) in Hnone.
  rewrite Hx0 by (rewrite Hnone; reflexivity). exact Hnone.
Qed.

(** The statement of X3 at a player who moves right and down, and at
    one who moves left. *)
Lemma velocity_of_the_player_witness :
  intent keys_right_and_down fish_c = Vec 1 1 /\
  Rabs (vx (Fish.velocity (Fish.update (1 / 50) keys_right_and_down fish_c)))
  = Rabs (vy (Fish.velocity (Fish.update (1 / 50) keys_right_and_down fish_c)))
  /\
  0 < Rabs (vx (Fish.velocity
                  (Fish.update (1 / 50) keys_right_and_down fish_c))) < 1 /\
  Fish.velocity (Fish.update (1 / 50) keys_left fish_c) = Vec (-1) 0.
Proof.
  assert (Hi : intent keys_right_and_down fish_c = Vec 1 1)
    by (rewrite steer_velocity; reflexivity).
  assert (Hl : intent keys_left fish_c = Vec (-1) 0)
    by (rewrite steer_velocity; reflexivity).
  destruct (velocity_of_the_player (1 / 50) keys_right_and_down fish_c)
    as (_ & _ & _ & Hd & _).
  destruct Hd as (He & Hb & _); [rewrite Hi; cbn; lra .. |].
  destruct (velocity_of_the_player (1 / 50) keys_left fish_c)
    as (_ & Hx & _).
  rewrite Hl in Hx.
  split; [exact Hi |]. split; [exact He |]. split; [exact Hb |].
  apply Hx. reflexivity.
Defined.

(** The two fields of the invincibility after [update]. *)
Lemma update_invincibility (dt : R) (k : Keys) (self : Fish.t) :
  Fish.invincible (Fish.update dt k self) =
    (Fish.invincible self && negb (Rleb (Fish.invincible_timer self - dt) 0))
  /\
  Fish.invincible_timer (Fish.update dt k self) =
    (if Fish.invincible self then Fish.invincible_timer self - dt
     else Fish.invincible_timer self).
Proof.
  destruct (heading_frame k self) as (_ & _ & _ & Hinv & Htm).
  unfold Fish.update. cbv zeta.
  cbn [Fish.invincible Fish.invincible_timer Fish.set_position
       Fish.set_invincible_timer].
  rewrite Hinv, Htm. destruct (Fish.invincible self).
  - cbn [andb]. destruct (Rleb (Fish.invincible_timer self - dt) 0);
      cbn [negb Fish.invincible Fish.invincible_timer Fish.set_invincible
           Fish.set_invincible_timer Fish.set_position];
      rewrite ?Hinv, ?Htm; split; reflexivity.
  - cbn [andb Fish.invincible Fish.invincible_timer Fish.set_position].
    rewrite Hinv, Htm. split; reflexivity.
Qed.

Lemma fish_frames_stay_vulnerable (dt : R) (ks : list Keys) :
  forall self : Fish.t,
    Fish.invincible self = false ->
    Fish.invincible (fish_frames dt ks self) = false.
Proof.
  induction ks as [| k ks IH]; intros self Hi; [exact Hi |].
  cbn [fish_frames]. apply IH.
  destruct (update_invincibility dt k self) as [-> _]. rewrite Hi.
  reflexivity.
Qed.

Lemma fish_frames_keep_timer (dt : R) (ks : list Keys) :
  forall self : Fish.t,
    Fish.invincible self = false ->
    Fish.invincible_timer (fish_frames dt ks self)
    = Fish.invincible_timer self.
Proof.
  induction ks as [| k ks IH]; intros self Hi; [reflexivity |].
  cbn [fish_frames].
  destruct (update_invincibility dt k self) as [Hinv Htm].
  rewrite IH by (rewrite Hinv, Hi; reflexivity).
  rewrite Htm, Hi. reflexivity.
Qed.

(** X4: the invincibility of the player over the frames.  An invincible
    player whose timer is above the time step stays invincible for the
    frame, with the time step taken off the timer; a player whose timer
    is not above the time step is not invincible after the frame, nor
    after any number of further frames, whatever keys are held; and a
    player who is not invincible stays so, with the timer left alone:
    [update] never makes a player invincible. *)
Theorem invincibility_of_a_frame (dt : R) (k : Keys) (ks : list Keys)
    (self : Fish.t) :
  (Fish.invincible self = true -> dt < Fish.invincible_timer self ->
   Fish.invincible (Fish.update dt k self) = true /\
   Fish.invincible_timer (Fish.update dt k self)
   = Fish.invincible_timer self - dt) /\
  (Fish.invincible_timer self <= dt ->
   Fish.invincible (fish_frames dt (k :: ks) self) = false) /\
  (Fish.invincible self = false ->
   Fish.invincible (fish_frames dt (k :: ks) self) = false /\
   Fish.invincible_timer (fish_frames dt (k :: ks) self)
   = Fish.invincible_timer self).
Proof.
  destruct (update_invincibility dt k self) as [Hinv Htm].
  split; [| split].
  - intros Hi Hlt. rewrite Hinv, Htm, Hi, Rleb_false by lra.
    split; reflexivity.
  - intros Hle. cbn [fish_frames]. apply fish_frames_stay_vulnerable.
    rewrite Hinv, Rleb_true by lra. apply andb_false_r.
  - intros Hi. split.
    + apply fish_frames_stay_vulnerable. exact Hi.
    + apply fish_frames_keep_timer. exact Hi.
Qed.

(** The statement of X4 at a player with 3 seconds of invincibility: it
    is still invincible after a frame of 20 ms, and no longer after a
    frame of 3 seconds and two more. *)
Lemma invincibility_of_a_frame_witness :
  Fish.invincible star_fish = true /\
  Fish.invincible (Fish.update (1 / 50) keys_none star_fish) = true /\
  Fish.invincible
    (fish_frames 3 [keys_none; keys_left; keys_none] star_fish) = false.
Proof.
  destruct (invincibility_of_a_frame (1 / 50) keys_none [] star_fish)
    as (Hon & _).
  destruct (invincibility_of_a_frame 3 keys_none [keys_left; keys_none]
              star_fish) as (_ & Hoff & _).
  split; [reflexivity |]. split.
  - apply Hon; [reflexivity | cbn; lra].
  - apply Hoff. cbn. lra.
Defined.

Lemma sub_self_length (p : Vector2) : V2.length (V2.sub p p) = 0.
Proof. unfold V2.sub. apply length_whole; [lra | ring]. Qed.

(** ** The pursuers and the spawner *)

(** A component of a vector is at most its length in size, and a
    component of a normalised vector is at most 1. *)
Lemma component_le_length (v : Vector2) :
  Rabs (vx v) <= V2.length v /\ Rabs (vy v) <= V2.length v.
Proof.
  unfold V2.length. split.
  - rewrite <- (sqrt_Rsqr_abs (vx v)). apply sqrt_le_1_alt.
    unfold Rsqr. nra.
  - rewrite <- (sqrt_Rsqr_abs (vy v)). apply sqrt_le_1_alt.
    unfold Rsqr. nra.
Qed.

Lemma normalize_bounded (v : Vector2) :
  0 < V2.length v ->
  Rabs (vx (V2.normalize v)) <= 1 /\ Rabs (vy (V2.normalize v)) <= 1.
Proof.
  intros Hpos. destruct (component_le_length v) as [Hx Hy].
  unfold V2.normalize. cbn [vx vy]. unfold Rdiv.
  rewrite !Rabs_mult, (Rabs_pos_eq (/ V2.length v))
    by (left; apply Rinv_0_lt_compat; exact Hpos).
  split; apply (Rmult_le_reg_r (V2.length v)); try exact Hpos;
    rewrite Rmult_assoc, Rinv_l by lra; lra.
Qed.

(** X5: a pursuer keeps its size and its speed, and stays where it is
    when it is exactly at its target; otherwise its update adds a vector
    to its position of which each component is at most [speed * dt] in
    size, whatever the random jitter. *)
Theorem pursuer_step_is_bounded (dt : R) (target : Vector2) (u : R * R)
    (self : Shark.t) :
  0 <= dt -> 0 <= Shark.speed self ->
  Shark.size (Shark.update dt target u self) = Shark.size self /\
  Shark.speed (Shark.update dt target u self) = Shark.speed self /\
  (Shark.position self = target -> Shark.update dt target u self = self) /\
  exists step : Vector2,
    Shark.position (Shark.update dt target u self)
    = V2.add (Shark.position self) step /\
    Rabs (vx step) <= Shark.speed self * dt /\
    Rabs (vy step) <= Shark.speed self * dt.
Proof.
  intros Hdt Hsp. assert (Hm : 0 <= Shark.speed self * dt) by nra.
  unfold Shark.update.
  destruct (Rlt_dec 0 (V2.length (V2.sub target (Shark.position self))))
    as [Hd | Hd].
  - rewrite (Rltb_true _ _ Hd). cbv zeta.
    cbn [Shark.size Shark.speed Shark.position].
    split; [reflexivity |]. split; [reflexivity |]. split.
    + intros Heq. rewrite Heq, sub_self_length in Hd. lra.
    + match goal with
      | |- context [if Rltb 0 (V2.length ?d) then _ else _] => set (dj := d)
      end.
      set (dir := if Rltb 0 (V2.length dj) then V2.normalize dj else dj).
      assert (Hdir : Rabs (vx dir) <= 1 /\ Rabs (vy dir) <= 1).
      { unfold dir. destruct (Rlt_dec 0 (V2.length dj)) as [Hj | Hj].
        - rewrite (Rltb_true _ _ Hj). apply normalize_bounded, Hj.
        - rewrite Rltb_false by lra.
          destruct (component_le_length dj). split; lra. }
      exists (V2.scale (V2.scale dir (Shark.speed self)) dt).
      split; [reflexivity |].
      unfold V2.scale. cbn [vx vy]. rewrite !Rmult_assoc.
      split; apply Rabs_scaled; tauto.
  - rewrite Rltb_false by lra.
    split; [reflexivity |]. split; [reflexivity |]. split; [reflexivity |].
    exists (Vec 0 0). unfold V2.add. cbn [vx vy]. rewrite Rabs_R0.
    split; [| split; exact Hm].
    destruct (Shark.position self) as [x y]. cbn [vx vy]. f_equal; ring.
Qed.

(** The statement of X5 at a pursuer of the easy level in a frame of
    20 ms, with a jitter to the left and downwards. *)
Lemma pursuer_step_is_bounded_witness :
  (0 <= 1 / 50 /\ 0 <= Shark.speed pursuer_c) /\
  exists step : Vector2,
    Shark.position
      (Shark.update (1 / 50) (Vec 450 335) (1 / 4, 3 / 4) pursuer_c)
    = V2.add (Shark.position pursuer_c) step /\
    Rabs (vx step) <= 190 * (1 / 50) /\
    Rabs (vy step) <= 190 * (1 / 50).
Proof.
  assert (Hdt : 0 <= 1 / 50) by lra.
  assert (Hsp : 0 <= Shark.speed pursuer_c) by (cbn; lra).
  split; [split; assumption |].
  destruct (pursuer_step_is_bounded (1 / 50) (Vec 450 335) (1 / 4, 3 / 4)
              pursuer_c Hdt Hsp) as (_ & _ & _ & Hstep).
  exact Hstep.
Defined.

(** X6: [spawn_shark] adds one pursuer at the end of the list and
    leaves the others as they are; the new pursuer is 140 by 90, has the
    speed [150 + 40 * difficulty], and its corner lies 100 beyond one of
    the four edges of the field, at a place along that edge. *)
Theorem spawned_pursuer (side : Z) (u : R) (g : Game) :
  0 <= u <= 1 ->
  exists shark : Shark.t,
    sharks (spawn_shark side u g) = sharks g ++ [shark] /\
    Shark.size shark = Vec 140 90 /\
    Shark.speed shark = 150 + IZR (difficulty g) * 40 /\
    (vx (Shark.position shark) = -100 /\
       0 <= vy (Shark.position shark) <= SCREEN_HEIGHT \/
     vx (Shark.position shark) = SCREEN_WIDTH + 100 /\
       0 <= vy (Shark.position shark) <= SCREEN_HEIGHT \/
     vy (Shark.position shark) = -100 /\
       0 <= vx (Shark.position shark) <= SCREEN_WIDTH \/
     vy (Shark.position shark) = SCREEN_HEIGHT + 100 /\
       0 <= vx (Shark.position shark) <= SCREEN_WIDTH).
Proof.
  intros Hu. unfold spawn_shark. cbv zeta. eexists.
  cbn [sharks with_sharks]. split; [reflexivity |].
  split; [reflexivity |]. split; [reflexivity |].
  unfold Shark.init. cbn [Shark.position vx vy].
  unfold uniform, SCREEN_WIDTH, SCREEN_HEIGHT.
  destruct (side =? 0)%Z; [left; cbn [fst snd]; nra |].
  destruct (side =? 1)%Z; [right; left; cbn [fst snd]; nra |].
  destruct (side =? 2)%Z; [right; right; left; cbn [fst snd]; nra |].
  right; right; right; cbn [fst snd]; nra.
Qed.

(** The statement of X6 at the medium level: the speed is 230. *)
Lemma spawned_pursuer_witness :
  exists shark : Shark.t,
    sharks (spawn_shark 1 (1 / 3) (set_difficulty 2 playing_game))
      = sharks (set_difficulty 2 playing_game) ++ [shark] /\
    Shark.speed shark = 230.
Proof.
  destruct (spawned_pursuer 1 (1 / 3) (set_difficulty 2 playing_game))
    as (shark & Hl & _ & Hs & _); [lra |].
  exists shark. split; [exact Hl |]. rewrite Hs. cbn. lra.
Defined.

(** X7: [spawn_powerup] adds one Power-up at the end of the list and
    leaves the others as they are; the new Power-up is active, 30 by 30,
    and its box lies inside the field, at least 50 from the left and top
    edges and 20 from the right and bottom edges. *)
Theorem spawned_powerup (ux uy : R) (k : nat) (g : Game) :
  0 <= ux <= 1 -> 0 <= uy <= 1 ->
  exists p : Powerup.t,
    powerups (spawn_powerup ux uy k g) = powerups g ++ [p] /\
    Powerup.active p = true /\
    Powerup.size p = Vec 30 30 /\
    50 <= vx (Powerup.position p) /\
    vx (Powerup.position p) + vx (Powerup.size p) <= SCREEN_WIDTH - 20 /\
    50 <= vy (Powerup.position p) /\
    vy (Powerup.position p) + vy (Powerup.size p) <= SCREEN_HEIGHT - 20.
Proof.
  intros Hx Hy. unfold spawn_powerup. cbv zeta. eexists.
  cbn [powerups with_powerups]. split; [reflexivity |].
  split; [reflexivity |]. split; [reflexivity |].
  unfold Powerup.init. cbn [Powerup.position Powerup.size vx vy].
  unfold uniform, SCREEN_WIDTH, SCREEN_HEIGHT. repeat split; nra.
Qed.

(** The statement of X7 at two draws inside the unit interval. *)
Lemma spawned_powerup_witness :
  exists p : Powerup.t,
    powerups (spawn_powerup (1 / 4) (3 / 4) 2 playing_game)
      = powerups playing_game ++ [p] /\
    Powerup.active p = true.
Proof.
  destruct (spawned_powerup (1 / 4) (3 / 4) 2 playing_game)
    as (p & Hl & Ha & _); [lra | lra |].
  exists p. split; assumption.
Defined.

(** X8: a ["mystery"] power-up has no effect of its own: whatever index
    [random.choice] draws, its effect is the invincibility, the slowing
    of the pursuers, or the score bonus. *)
Theorem mystery_is_one_of_three (k : nat) (g : Game) :
  apply_effect k Powerup.mystery g = make_invincible g \/
  apply_effect k Powerup.mystery g = slow_sharks g \/
  apply_effect k Powerup.mystery g = add_bonus g.
Proof.
  unfold apply_effect, choice. cbn [List.length].
  pose proof (Nat.mod_upper_bound k 3) as Hlt.
  destruct (k mod 3)%nat as [| [| [| m]]]; cbn [nth]; auto.
  lia.
Qed.

(** ** The frame, field by field *)

Lemma apply_effect_cases (k : nat) (ty : Powerup.kind) (g : Game) :
  apply_effect k ty g = make_invincible g \/
  apply_effect k ty g = slow_sharks g \/
  apply_effect k ty g = add_bonus g.
Proof.
  destruct ty; cbn [apply_effect]; auto.
  unfold choice. cbn [List.length].
  pose proof (Nat.mod_upper_bound k 3) as Hlt.
  destruct (k mod 3)%nat as [| [| [| m]]]; cbn [nth]; auto.
  lia.
Qed.

(** What the three effects leave alone is left alone by the loop over
    the power-ups. *)
Lemma effects_keep {A : Type} (proj : Game -> A) (f : Frame) (p : Fish.t)
    (todo : list Powerup.t) :
  (forall g, proj (make_invincible g) = proj g) ->
  (forall g, proj (slow_sharks g) = proj g) ->
  (forall g, proj (add_bonus g) = proj g) ->
  forall (i : nat) (g : Game), proj (effects f p i todo g) = proj g.
Proof.
  intros Hi Hs Hb. induction todo as [| q todo IH]; intros i g;
    [reflexivity |].
  cbn [effects]. rewrite IH. destruct (collides_with q p); [| reflexivity].
  destruct (apply_effect_cases (mystery_draw f i) (Powerup.type q) g)
    as [-> | [-> | ->]]; auto.
Qed.

Lemma effects_sharks_length (f : Frame) (p : Fish.t) (todo : list Powerup.t) :
  forall (i : nat) (g : Game),
    List.length (sharks (effects f p i todo g)) = List.length (sharks g).
Proof.
  induction todo as [| q todo IH]; intros i g; [reflexivity |].
  cbn [effects]. rewrite IH. destruct (collides_with q p); [| reflexivity].
  destruct (apply_effect_cases (mystery_draw f i) (Powerup.type q) g)
    as [-> | [-> | ->]]; try reflexivity.
  cbn [slow_sharks sharks with_sharks]. apply length_map.
Qed.

(** What the two spawns and the two timers leave alone is left alone by
    the spawner. *)
Lemma spawner_keep {A : Type} (proj : Game -> A) (f : Frame) (g : Game) :
  (forall g l, proj (with_sharks g l) = proj g) ->
  (forall g l, proj (with_powerups g l) = proj g) ->
  (forall g t, proj (with_last_spawn_time g t) = proj g) ->
  (forall g t, proj (with_last_powerup_spawn_time g t) = proj g) ->
  proj (spawner f g) = proj g.
Proof.
  intros Hs Hp Ht Hq. unfold spawner.
  destruct (ticks f 0%nat - last_spawn_time g >? spawn_rate g)%Z;
    match goal with
    | |- context [if ?c then _ else _] => destruct c
    end;
    unfold spawn_shark, spawn_powerup; cbv zeta;
    rewrite ?Hq, ?Hp, ?Ht, ?Hs; reflexivity.
Qed.

Lemma moved_sharks_length (f : Frame) (target : Vector2)
    (todo : list Shark.t) :
  forall i : nat,
    List.length (moved_sharks f target i todo) = List.length todo.
Proof.
  induction todo as [| s todo IH]; intros i; [reflexivity |].
  cbn [moved_sharks List.length]. rewrite IH. reflexivity.
Qed.

(** The later passes, for a field that the effects and the spawner
    leave alone. *)
Lemma later_passes_keep {A : Type} (proj : Game -> A) (f : Frame) (g : Game) :
  (forall g, proj (make_invincible g) = proj g) ->
  (forall g, proj (slow_sharks g) = proj g) ->
  (forall g, proj (add_bonus g) = proj g) ->
  (forall g l, proj (with_sharks g l) = proj g) ->
  (forall g l, proj (with_powerups g l) = proj g) ->
  (forall g t, proj (with_last_spawn_time g t) = proj g) ->
  (forall g t, proj (with_last_powerup_spawn_time g t) = proj g) ->
  (forall g l, proj (with_bubbles g l) = proj g) ->
  proj (later_passes f g) = proj g.
Proof.
  intros Hi Hsl Hb Hs Hp Ht Hq Hbb. unfold later_passes. cbv zeta.
  rewrite Hbb, (spawner_keep proj) by assumption.
  rewrite powerup_pass_spec, Hp. apply effects_keep; assumption.
Qed.

(** The score after the effects of the power-ups: 200 is added once for
    each power-up that overlaps the player and gives the score bonus. *)
Lemma effects_bonuses (f : Frame) (p : Fish.t) (todo : list Powerup.t) :
  forall (i : nat) (g : Game),
    score (effects f p i todo g)
    = Nat.iter (bonuses f p i todo) (fun s => s + 200) (score g).
Proof.
  induction todo as [| q todo IH]; intros i g; [reflexivity |].
  cbn [effects bonuses]. rewrite IH.
  destruct (collides_with q p); [| reflexivity].
  cbn [andb]. unfold resolved, apply_effect.
  destruct (Powerup.type q); cbn [is_score Nat.add]; try reflexivity.
  - rewrite Nat.iter_succ_r. reflexivity.
  - destruct (choice Powerup.invincible
                [Powerup.invincible; Powerup.slow; Powerup.score]
                (mystery_draw f i));
      cbn [is_score Nat.add]; try reflexivity.
    rewrite Nat.iter_succ_r. reflexivity.
Qed.

Lemma bonuses_le (f : Frame) (p : Fish.t) (todo : list Powerup.t) :
  forall i : nat, (bonuses f p i todo <= List.length todo)%nat.
Proof.
  induction todo as [| q todo IH]; intros i; [apply Nat.le_refl |].
  cbn [bonuses List.length]. specialize (IH (S i)).
  destruct (collides_with q p
            && is_score (resolved (mystery_draw f i) (Powerup.type q))); lia.
Qed.

(** X9: in a frame of the playing state the score grows by [dt * 20]
    for the time survived, and then by 200 for each Power-up of the live
    set that overlaps the player (after the player's own update) and
    gives the score bonus: a score Power-up, or a mystery whose draw is
    the score; and by nothing else. *)
Theorem score_of_a_frame (f : Frame) (g : Game) :
  state g = PLAYING ->
  score (update f g)
  = Nat.iter (bonuses f (player (advance f g)) 0 (powerups g))
      (fun s => s + 200) (score g + dt f * 20) /\
  (bonuses f (player (advance f g)) 0 (powerups g)
   <= List.length (powerups g))%nat.
Proof.
  intros Hst. split; [| apply bonuses_le].
  rewrite (update_spec f g Hst).
  match goal with
  | |- context [with_ranking ?l ?st ?hs ?sv] =>
      destruct (with_ranking_rest l st hs sv) as (-> & _)
  end.
  unfold later_passes. cbv zeta.
  change (score (with_bubbles ?x ?l)) with (score x).
  rewrite (spawner_keep score) by reflexivity.
  rewrite powerup_pass_spec.
  change (score (with_powerups ?x ?l)) with (score x).
  rewrite effects_bonuses, with_sharks_player. reflexivity.
Qed.

(** The statement of X9 at the frame with a score bonus on the player:
    one bonus, and the score 100 becomes 100 + 0.4 + 200. *)
Lemma score_of_a_frame_witness :
  state closing_in = PLAYING /\
  bonuses (quiet_frame 3000)
    (player (advance (quiet_frame 3000) closing_in)) 0 (powerups closing_in)
  = 1%nat /\
  score (update (quiet_frame 3000) closing_in) = 100 + 1 / 50 * 20 + 200.
Proof.
  assert (Hp : Fish.position (player closing_in)
               = Vec (SCREEN_WIDTH / 2) (SCREEN_HEIGHT / 2)) by reflexivity.
  assert (Hs : Fish.size (player closing_in) = Vec 100 70) by reflexivity.
  destruct (quiet_player_rects 3000 closing_in Hp Hs) as [_ Hr].
  assert (Hb : get_rect bonus 18 = mkRect 458 338 (-6) (-6))
    by (apply (get_rect_whole bonus 440 320 30 30 18); reflexivity).
  assert (Hn : bonuses (quiet_frame 3000)
                 (player (advance (quiet_frame 3000) closing_in)) 0
                 (powerups closing_in) = 1%nat).
  { change (powerups closing_in) with [bonus]. cbn [bonuses].
    unfold collides_with, overlaps. rewrite Hb, Hr. reflexivity. }
  destruct (score_of_a_frame (quiet_frame 3000) closing_in eq_refl)
    as [Hsc _].
  rewrite Hn in Hsc.
  split; [reflexivity |]. split; [exact Hn |].
  rewrite Hsc. reflexivity.
Defined.

(** X10: a frame of the playing state never removes a pursuer: their
    number grows by one when the spawn timer has run out (the clock is
    more than [spawn_rate] past the last spawn) and stays the same
    otherwise, also in the frame that ends the run and also when
    Power-ups are picked up. *)
Theorem pursuers_of_a_frame (f : Frame) (g : Game) :
  state g = PLAYING ->
  List.length (sharks (update f g)) =
  (List.length (sharks g) +
   (if (ticks f 0%nat - last_spawn_time g >? spawn_rate g)%Z then 1 else 0))%nat.
Proof.
  intros Hst. rewrite (update_spec f g Hst).
  match goal with
  | |- context [with_ranking ?l ?st ?hs ?sv] =>
      destruct (with_ranking_rest l st hs sv) as (_ & -> & _)
  end.
  unfold later_passes. cbv zeta.
  change (sharks (with_bubbles ?x ?l)) with (sharks x).
  set (calm := with_sharks (advance f g)
                 (moved_sharks f (target_of (advance f g)) 0 (sharks g))).
  assert (Hlen : List.length (sharks (powerup_pass f calm))
                 = List.length (sharks g)).
  { rewrite powerup_pass_spec.
    change (sharks (with_powerups ?x ?l)) with (sharks x).
    rewrite effects_sharks_length. apply moved_sharks_length. }
  assert (Ht : last_spawn_time (powerup_pass f calm) = last_spawn_time g).
  { rewrite powerup_pass_spec.
    change (last_spawn_time (with_powerups ?x ?l)) with (last_spawn_time x).
    rewrite (effects_keep last_spawn_time) by reflexivity. reflexivity. }
  assert (Hr : spawn_rate (powerup_pass f calm) = spawn_rate g).
  { rewrite powerup_pass_spec.
    change (spawn_rate (with_powerups ?x ?l)) with (spawn_rate x).
    rewrite (effects_keep spawn_rate) by reflexivity. reflexivity. }
  unfold spawner. rewrite Ht, Hr.
  destruct (ticks f 0%nat - last_spawn_time g >? spawn_rate g)%Z;
    match goal with
    | |- context [if ?c then _ else _] => destruct c
    end;
    unfold spawn_shark, spawn_powerup; cbv zeta;
    cbn [sharks with_sharks with_powerups with_last_spawn_time
         with_last_powerup_spawn_time];
    rewrite ?length_app, Hlen; cbn [List.length]; lia.
Qed.

(** The statement of X10 at the frame with two pursuers and no spawn. *)
Lemma pursuers_of_a_frame_witness :
  List.length (sharks (update (quiet_frame 1000) two_pursuers)) = 2%nat.
Proof.
  rewrite (pursuers_of_a_frame (quiet_frame 1000) two_pursuers eq_refl).
  reflexivity.
Defined.

Lemma filter_none {A : Type} (p : A -> bool) (l : list A) :
  (forall x, In x l -> p x = false) -> filter p l = [].
Proof.
  induction l as [| a l IH]; intros Hall; [reflexivity |].
  cbn [filter]. rewrite (Hall a (or_introl eq_refl)).
  apply IH. intros x Hx. apply Hall. right. exact Hx.
Qed.

(** X11: the run goes on, and neither the ranked list nor the score
    file is touched, in every frame of the playing state in which the
    player, after its own update, is invincible or is overlapped by none
    of the pursuers after their move. *)
Theorem run_goes_on (f : Frame) (g : Game) :
  state g = PLAYING ->
  Fish.invincible (player (advance f g)) = true \/
  (forall shark,
     In shark (moved_sharks f (target_of (advance f g)) 0 (sharks g)) ->
     collides_with shark (player (advance f g)) = false) ->
  state (update f g) = PLAYING /\
  high_scores (update f g) = high_scores g /\
  saved (update f g) = saved g.
Proof.
  intros Hst Hsafe.
  assert (Hn : lethal_count f (advance f g) = 0%nat).
  { unfold lethal_count. destruct Hsafe as [-> | Hnone]; [reflexivity |].
    destruct (Fish.invincible (player (advance f g))); [reflexivity |].
    unfold overlapping.
    change (sharks (advance f g)) with (sharks g).
    rewrite (filter_none _ _ Hnone). reflexivity. }
  rewrite (update_spec f g Hst), Hn.
  match goal with
  | |- context [with_ranking ?l ?st ?hs ?sv] =>
      destruct (with_ranking_fields l st hs sv) as (-> & -> & ->)
  end.
  cbn [Nat.iter nat_rect]. repeat split. exact Hst.
Qed.

Lemma advance_player (f : Frame) (g : Game) :
  player (advance f g) = Fish.update (dt f) (keys f) (player g).
Proof. reflexivity. Qed.

(** The pursuer far above the player stays far from it in the frame. *)
Lemma far_away_safe (shark : Shark.t) :
  In shark
    (moved_sharks (quiet_frame 1000)
       (target_of (advance (quiet_frame 1000) far_away)) 0 (sharks far_away)) ->
  collides_with shark (player (advance (quiet_frame 1000) far_away)) = false.
Proof.
  assert (Hp : Fish.position (player far_away)
               = Vec (SCREEN_WIDTH / 2) (SCREEN_HEIGHT / 2)) by reflexivity.
  assert (Hs : Fish.size (player far_away) = Vec 100 70) by reflexivity.
  destruct (quiet_player_rects 1000 far_away Hp Hs) as [_ Hr].
  rewrite (quiet_target 1000 far_away Hp Hs).
  change (sharks far_away) with [pursuer_far].
  cbn [moved_sharks dt jitter quiet_frame].
  replace (Shark.update (1 / 50) (Vec 450 335) (1 / 2, 1 / 2) pursuer_far)
    with (Shark.mk (Vec 450 (100 + 190 * (1 / 50))) (Vec 140 90) 190)
    by (symmetry; apply shark_update_down; lra).
  intros [<- | []].
  unfold collides_with, overlaps. rewrite Hr.
  replace (get_rect
             (Shark.mk (Vec 450 (100 + 190 * (1 / 50))) (Vec 140 90) 190) 18)
    with (mkRect 468 121 104 54); [reflexivity |].
  unfold get_rect. cbn [position size Shark_GameObject Shark.position
    Shark.size vx vy].
  f_equal; symmetry; apply py_int_floor; lra.
Qed.

(** The player who has just picked up an invincibility power-up is
    still invincible after the update of a frame of 20 ms. *)
Lemma shielded_invincible :
  Fish.invincible (player (advance (quiet_frame 1000) shielded)) = true.
Proof.
  rewrite advance_player.
  destruct (update_invincibility (dt (quiet_frame 1000))
              (keys (quiet_frame 1000)) (player shielded)) as [-> _].
  change (Fish.invincible (player shielded)) with true.
  change (Fish.invincible_timer (player shielded)) with 3.
  cbn [dt quiet_frame andb]. rewrite Rleb_false by lra. reflexivity.
Qed.

(** Both pursuers overlap that player after their move. *)
Lemma shielded_overlapped :
  overlapping (player (advance (quiet_frame 1000) shielded))
    (moved_sharks (quiet_frame 1000)
       (target_of (advance (quiet_frame 1000) shielded)) 0 (sharks shielded))
  = 2%nat.
Proof.
  assert (Hp : Fish.position (player shielded)
               = Vec (SCREEN_WIDTH / 2) (SCREEN_HEIGHT / 2)) by reflexivity.
  assert (Hs : Fish.size (player shielded) = Vec 100 70) by reflexivity.
  destruct (quiet_player_rects 1000 shielded Hp Hs) as [_ Hr].
  rewrite (quiet_target 1000 shielded Hp Hs).
  change (sharks shielded) with [pursuer_a; pursuer_b].
  cbn [moved_sharks dt jitter quiet_frame].
  rewrite pursuer_a_moved, pursuer_b_moved.
  unfold overlapping, collides_with, overlaps. cbn [filter].
  rewrite pursuer_a_rect, pursuer_b_rect, Hr. reflexivity.
Qed.

(** The statement of X11 at a run with a pursuer that stays far from
    the player, and at a run with two pursuers on a player who is
    invincible. *)
Lemma run_goes_on_witness :
  (sharks far_away = [pursuer_far] /\
   state (update (quiet_frame 1000) far_away) = PLAYING /\
   high_scores (update (quiet_frame 1000) far_away) = high_scores far_away /\
   saved (update (quiet_frame 1000) far_away) = saved far_away) /\
  (sharks shielded = [pursuer_a; pursuer_b] /\
   Fish.invincible (player (advance (quiet_frame 1000) shielded)) = true /\
   overlapping (player (advance (quiet_frame 1000) shielded))
     (moved_sharks (quiet_frame 1000)
        (target_of (advance (quiet_frame 1000) shielded)) 0 (sharks shielded))
   = 2%nat /\
   state (update (quiet_frame 1000) shielded) = PLAYING /\
   high_scores (update (quiet_frame 1000) shielded) = high_scores shielded /\
   saved (update (quiet_frame 1000) shielded) = saved shielded).
Proof.
  split.
  - split; [reflexivity |].
    apply (run_goes_on (quiet_frame 1000) far_away eq_refl).
    right. exact far_away_safe.
  - split; [reflexivity |]. split; [exact shielded_invincible |].
    split; [exact shielded_overlapped |].
    apply (run_goes_on (quiet_frame 1000) shielded eq_refl).
    left. exact shielded_invincible.
Defined.

(** X12: a frame of the playing state adds [dt] to the time of the run
    and leaves the name, the difficulty, the two spawn intervals and the
    size and the speed of the player as they are. *)
Theorem bookkeeping_of_a_frame (f : Frame) (g : Game) :
  state g = PLAYING ->
  game_time (update f g) = game_time g + dt f /\
  username (update f g) = username g /\
  difficulty (update f g) = difficulty g /\
  spawn_rate (update f g) = spawn_rate g /\
  powerup_spawn_rate (update f g) = powerup_spawn_rate g /\
  Fish.size (player (update f g)) = Fish.size (player g) /\
  Fish.speed (player (update f g)) = Fish.speed (player g).
Proof.
  intros Hst. rewrite (update_spec f g Hst).
  set (calm := with_sharks (advance f g)
                 (moved_sharks f (target_of (advance f g)) 0 (sharks g))).
  assert (Hsize : Fish.size (player calm) = Fish.size (player g))
    by apply update_size.
  assert (Hspeed : Fish.speed (player calm) = Fish.speed (player g)).
  { cbn [calm advance with_sharks with_player player].
    unfold Fish.update. cbv zeta.
    destruct (heading_frame (keys f) (player g)) as (_ & _ & Hsp & _).
    match goal with
    | |- context [if Fish.invincible ?x then _ else _] =>
        destruct (Fish.invincible x)
    end.
    - match goal with
      | |- context [if Rleb ?a ?b then _ else _] => destruct (Rleb a b)
      end; exact Hsp.
    - exact Hsp. }
  repeat split.
  - change (game_time (with_ranking ?x ?a ?b ?c)) with (game_time x).
    rewrite (later_passes_keep game_time) by reflexivity. reflexivity.
  - change (username (with_ranking ?x ?a ?b ?c)) with (username x).
    rewrite (later_passes_keep username) by reflexivity. reflexivity.
  - change (difficulty (with_ranking ?x ?a ?b ?c)) with (difficulty x).
    rewrite (later_passes_keep difficulty) by reflexivity. reflexivity.
  - change (spawn_rate (with_ranking ?x ?a ?b ?c)) with (spawn_rate x).
    rewrite (later_passes_keep spawn_rate) by reflexivity. reflexivity.
  - change (powerup_spawn_rate (with_ranking ?x ?a ?b ?c))
      with (powerup_spawn_rate x).
    rewrite (later_passes_keep powerup_spawn_rate) by reflexivity.
    reflexivity.
  - change (player (with_ranking ?x ?a ?b ?c)) with (player x).
    rewrite (later_passes_keep (fun g => Fish.size (player g)))
      by reflexivity.
    exact Hsize.
  - change (player (with_ranking ?x ?a ?b ?c)) with (player x).
    rewrite (later_passes_keep (fun g => Fish.speed (player g)))
      by reflexivity.
    exact Hspeed.
Qed.

(** The statement of X12 at the frame with two pursuers. *)
Lemma bookkeeping_of_a_frame_witness :
  game_time (update (quiet_frame 1000) two_pursuers)
    = game_time two_pursuers + dt (quiet_frame 1000) /\
  username (update (quiet_frame 1000) two_pursuers) = username two_pursuers.
Proof.
  destruct (bookkeeping_of_a_frame (quiet_frame 1000) two_pursuers eq_refl)
    as (Ht & Hu & _).
  split; assumption.
Defined.

(** ** Events *)

(** X13: while the run is on, no event changes the game: every event
    but the request to quit is ignored in the playing state. *)
Theorem playing_ignores_events (clock : nat -> Z) (e : Event) (g : Game) :
  state g = PLAYING -> e <> QUIT -> handle_event clock e g = Some g.
Proof.
  intros Hst Hq. unfold handle_event. cbv zeta.
  destruct e; try (contradiction Hq; reflexivity);
    repeat (rewrite Hst; cbn [GameState_eqb]); reflexivity.
Qed.

(** The statement of X13 at a click on the place of a menu button
    during a run. *)
Lemma playing_ignores_events_witness :
  handle_event clock0 click_set_name playing_game = Some playing_game.
Proof.
  apply (playing_ignores_events clock0 click_set_name playing_game).
  - reflexivity.
  - discriminate.
Defined.

(** X14: after the end of a run the key R starts a new run and the key
    M goes to the menu.  The new run is in the playing state with the
    score and the time at 0, no pursuer, no Power-up, the player in the
    middle of the field and both spawn timers at the reading of the
    clock; the name, the difficulty, the ranked list and the file are
    kept, and so is the invincibility of the player, which is not
    reset. *)
Theorem keys_after_game_over (clock : nat -> Z) (text : str)
    (isprintable : bool) (g : Game) :
  state g = GAMEOVER ->
  handle_event clock (KEYDOWN K_m text isprintable) g
    = Some (with_state g MENU) /\
  exists g',
    handle_event clock (KEYDOWN K_r text isprintable) g = Some g' /\
    state g' = PLAYING /\ score g' = 0 /\ game_time g' = 0 /\
    sharks g' = [] /\ powerups g' = [] /\
    Fish.position (player g') = Vec (SCREEN_WIDTH / 2) (SCREEN_HEIGHT / 2) /\
    last_spawn_time g' = clock 0%nat /\
    last_powerup_spawn_time g' = clock 1%nat /\
    username g' = username g /\ difficulty g' = difficulty g /\
    high_scores g' = high_scores g /\ saved g' = saved g /\
    Fish.invincible (player g') = Fish.invincible (player g) /\
    Fish.invincible_timer (player g') = Fish.invincible_timer (player g).
Proof.
  intros Hst. split.
  - unfold handle_event. cbv zeta. rewrite Hst. reflexivity.
  - exists (start_game clock g). split.
    + unfold handle_event. cbv zeta. rewrite Hst. reflexivity.
    + repeat split.
Qed.

(** The statement of X14 at the game left by the frame in which two
    pursuers end the run. *)
Lemma keys_after_game_over_witness :
  exists g',
    handle_event clock0 (KEYDOWN K_r [114%N] true)
      (with_state two_pursuers GAMEOVER) = Some g' /\
    state g' = PLAYING /\ sharks g' = [].
Proof.
  destruct (keys_after_game_over clock0 [114%N] true
              (with_state two_pursuers GAMEOVER) eq_refl)
    as (_ & g' & He & Hs & _ & _ & Hsh & _).
  exists g'. repeat split; assumption.
Defined.

Lemma with_username_input_same (g : Game) :
  with_username_input g (username_input g) = g.
Proof. destruct g; reflexivity. Qed.

(** X15: in the name entry, typing one character and then pressing
    backspace gives back the game as it was; a key whose text is not
    printable is ignored; backspace on an empty buffer changes
    nothing. *)
Theorem name_entry_keys (clock : nat -> Z) (c : N) (text : str)
    (isprintable : bool) (g : Game) :
  state g = NAME_INPUT ->
  handle_events clock
    [KEYDOWN K_other [c] true; KEYDOWN K_BACKSPACE text isprintable] g
    = Some g /\
  handle_event clock (KEYDOWN K_other text false) g = Some g /\
  (username_input g = [] ->
   handle_event clock (KEYDOWN K_BACKSPACE text isprintable) g = Some g).
Proof.
  intros Hst.
  assert (Hback : forall g0, state g0 = NAME_INPUT ->
            handle_event clock (KEYDOWN K_BACKSPACE text isprintable) g0
            = Some (with_username_input g0 (removelast (username_input g0)))).
  { intros g0 H0. unfold handle_event. cbv zeta.
    repeat (rewrite H0; cbn [GameState_eqb]). reflexivity. }
  split; [| split].
  - cbn [handle_events].
    assert (Htype : handle_event clock (KEYDOWN K_other [c] true) g
                    = Some (with_username_input g (username_input g ++ [c]))).
    { unfold handle_event. cbv zeta.
      repeat (rewrite Hst; cbn [GameState_eqb]). reflexivity. }
    rewrite Htype. cbv beta iota. rewrite Hback by exact Hst.
    cbn [username_input with_username_input]. rewrite removelast_last.
    f_equal. destruct g; reflexivity.
  - unfold handle_event. cbv zeta.
    repeat (rewrite Hst; cbn [GameState_eqb]). reflexivity.
  - intros Hempty. rewrite Hback by exact Hst. rewrite Hempty.
    cbn [removelast]. rewrite <- Hempty. f_equal.
    apply with_username_input_same.
Qed.

(** The statement of X15 at the name entry opened from the menu. *)
Lemma name_entry_keys_witness :
  handle_events clock0 [typed "x"; KEYDOWN K_BACKSPACE [8%N] false]
    (enter_name_mode menu_game)
  = Some (enter_name_mode menu_game).
Proof.
  destruct (name_entry_keys clock0 120%N [8%N] false
              (enter_name_mode menu_game) eq_refl) as (Hround & _).
  exact Hround.
Defined.

Lemma lstrip_idem (s : str) : lstrip (lstrip s) = lstrip s.
Proof.
  induction s as [| c s IH]; [reflexivity |].
  cbn [lstrip]. destruct (isspace c) eqn:Ec; [exact IH |].
  cbn [lstrip]. rewrite Ec. reflexivity.
Qed.

Lemma lstrip_app_nonspace (a : str) (c : N) :
  isspace c = false -> lstrip (a ++ [c]) = lstrip a ++ [c].
Proof.
  intros Hc. induction a as [| x a IH]; cbn [lstrip app].
  - rewrite Hc. reflexivity.
  - destruct (isspace x); [exact IH | reflexivity].
Qed.

Lemma rstrip_cons_nonspace (c : N) (l : str) :
  isspace c = false -> rstrip (c :: l) = c :: rstrip l.
Proof.
  intros Hc. unfold rstrip. cbn [rev].
  rewrite (lstrip_app_nonspace _ _ Hc), rev_app_distr. reflexivity.
Qed.

Lemma rstrip_idem (l : str) : rstrip (rstrip l) = rstrip l.
Proof.
  unfold rstrip. rewrite rev_involutive, lstrip_idem. reflexivity.
Qed.

Lemma lstrip_rstrip_lstrip (s : str) :
  lstrip (rstrip (lstrip s)) = rstrip (lstrip s).
Proof.
  induction s as [| c s IH]; [reflexivity |].
  cbn [lstrip]. destruct (isspace c) eqn:Ec; [exact IH |].
  rewrite (rstrip_cons_nonspace _ _ Ec). cbn [lstrip]. rewrite Ec.
  reflexivity.
Qed.

(** Stripping twice is stripping once. *)
Lemma strip_idem (s : str) : strip (strip s) = strip s.
Proof.
  unfold strip. rewrite lstrip_rstrip_lstrip. apply rstrip_idem.
Qed.

(** X16: whatever the buffer holds, the name left by a confirm in the
    name entry is not empty and has no white space at its start or at
    its end (stripping it changes nothing). *)
Theorem confirmed_name_is_clean (clock : nat -> Z) (text : str)
    (isprintable : bool) (g : Game) :
  state g = NAME_INPUT ->
  exists g',
    handle_event clock (KEYDOWN K_RETURN text isprintable) g = Some g' /\
    username g' <> [] /\
    strip (username g') = username g'.
Proof.
  intros Hst.
  exists (on_name_input (KEYDOWN K_RETURN text isprintable) g). split.
  - unfold handle_event. cbv zeta.
    repeat (rewrite Hst; cbn [GameState_eqb]). reflexivity.
  - cbn [on_name_input username with_state with_username].
    destruct (strip (username_input g)) as [| c s] eqn:Hs; cbn [truthy].
    + split; [discriminate | reflexivity].
    + split; [discriminate |]. rewrite <- Hs. apply strip_idem.
Qed.

(** The statement of X16 at a buffer with spaces on both sides. *)
Lemma confirmed_name_is_clean_witness :
  exists g',
    handle_event clock0 return_key
      (with_username_input (enter_name_mode menu_game) (lit "  Bo "))
      = Some g' /\
    username g' <> [] /\ strip (username g') = username g'.
Proof.
  apply (confirmed_name_is_clean clock0 [13%N] false
           (with_username_input (enter_name_mode menu_game) (lit "  Bo "))).
  reflexivity.
Defined.

(** ** The menu *)

Lemma run_action_levels (clock : nat -> Z) (b : Button.t) (g : Game) :
  level_ok b = true -> levels_ok g ->
  levels_ok (run_action clock (Button.action b) g) /\
  buttons (run_action clock (Button.action b) g) = buttons g.
Proof.
  unfold level_ok, levels_ok. intros Hb [Hbs Hd].
  destruct (Button.action b) as [level | |]; cbn; repeat split;
    try assumption; lia.
Qed.

Lemma click_levels (clock : nat -> Z) (pos : Z * Z) (bs : list Button.t) :
  forall g : Game,
    forallb level_ok bs = true -> levels_ok g ->
    levels_ok
      (fold_left
         (fun g b =>
            if Button.contains b pos
            then run_action clock (Button.action b) g else g)
         bs g).
Proof.
  induction bs as [| b bs IH]; intros g Hbs Hg; [exact Hg |].
  cbn [forallb] in Hbs. apply andb_true_iff in Hbs. destruct Hbs as [Hb Hbs].
  cbn [fold_left]. apply IH; [exact Hbs |].
  destruct (Button.contains b pos); [| exact Hg].
  apply run_action_levels; assumption.
Qed.

Lemma hover_levels (pos : Z * Z) (bs : list Button.t) :
  forallb level_ok
    (map (fun b => Button.set_is_hovered b (Button.contains b pos)) bs)
  = forallb level_ok bs.
Proof.
  induction bs as [| b bs IH]; [reflexivity |].
  cbn [map forallb]. rewrite IH. reflexivity.
Qed.

Lemma place_buttons_levels (bs : list Button.t) :
  forall i : Z, forallb level_ok (place_buttons i bs) = forallb level_ok bs.
Proof.
  induction bs as [| b bs IH]; intros i; [reflexivity |].
  cbn [place_buttons forallb]. rewrite IH. reflexivity.
Qed.

(** The three blocks of the event loop, one after the other. *)
Lemma handle_event_blocks (clock : nat -> Z) (e : Event) (g : Game) :
  e <> QUIT ->
  handle_event clock e g =
  Some (in_state NAME_INPUT (on_name_input e)
          (in_state MENU (on_menu clock e)
             (in_state GAMEOVER (on_gameover clock e) g))).
Proof.
  intros Hq. destruct e; try reflexivity. contradiction Hq; reflexivity.
Qed.

Lemma in_state_levels (st : GameState) (block : Game -> Game) (g : Game) :
  (forall g0, levels_ok g0 -> levels_ok (block g0)) ->
  levels_ok g -> levels_ok (in_state st block g).
Proof.
  intros Hb Hg. unfold in_state.
  destruct (GameState_eqb (state g) st); [apply Hb |]; exact Hg.
Qed.

Lemma on_gameover_levels (clock : nat -> Z) (e : Event) (g : Game) :
  levels_ok g -> levels_ok (on_gameover clock e g).
Proof.
  intros Hg. destruct e as [| key text pr | | |]; try exact Hg.
  destruct key; exact Hg.
Qed.

Lemma on_menu_levels (clock : nat -> Z) (e : Event) (g : Game) :
  levels_ok g -> levels_ok (on_menu clock e g).
Proof.
  intros Hg. destruct e as [| key text pr | pos | button pos |];
    try exact Hg.
  - destruct Hg as [Hb Hd]. split; [| exact Hd].
    cbn [on_menu buttons with_buttons]. rewrite hover_levels. exact Hb.
  - unfold on_menu. destruct button as [| [| |] |]; try exact Hg.
    apply click_levels; [apply Hg | exact Hg].
Qed.

Lemma on_name_input_levels (e : Event) (g : Game) :
  levels_ok g -> levels_ok (on_name_input e g).
Proof.
  intros Hg. destruct e as [| key text pr | | |]; try exact Hg.
  destruct key; cbn [on_name_input]; try exact Hg; destruct pr; exact Hg.
Qed.

Lemma handle_event_levels (clock : nat -> Z) (e : Event) (g g' : Game) :
  levels_ok g -> handle_event clock e g = Some g' -> levels_ok g'.
Proof.
  intros Hg He.
  assert (Hq : e <> QUIT) by (intros ->; discriminate He).
  rewrite (handle_event_blocks clock e g Hq) in He. injection He as <-.
  apply in_state_levels; [apply on_name_input_levels |].
  apply in_state_levels; [apply on_menu_levels |].
  apply in_state_levels; [apply on_gameover_levels | exact Hg].
Qed.

Lemma handle_events_levels (clock : nat -> Z) (events : list Event) :
  forall g g' : Game,
    levels_ok g -> handle_events clock events g = Some g' -> levels_ok g'.
Proof.
  induction events as [| e events IH]; intros g g' Hg He.
  - injection He as <-. exact Hg.
  - cbn [handle_events] in He.
    destruct (handle_event clock e g) as [g1 |] eqn:H1; [| discriminate].
    apply (IH g1 g'); [| exact He].
    apply (handle_event_levels clock e g g1 Hg H1).
Qed.

Lemma update_levels (f : Frame) (g : Game) :
  levels_ok g -> levels_ok (update f g).
Proof.
  intros Hg. destruct (GameState_eqb (state g) PLAYING) eqn:Hst.
  - assert (Hp : state g = PLAYING) by (destruct (state g); try discriminate;
      reflexivity).
    rewrite (update_spec f g Hp). unfold levels_ok.
    change (buttons (with_ranking ?x ?a ?b ?c)) with (buttons x).
    change (difficulty (with_ranking ?x ?a ?b ?c)) with (difficulty x).
    rewrite (later_passes_keep buttons), (later_passes_keep difficulty)
      by reflexivity.
    exact Hg.
  - unfold update. rewrite Hst. exact Hg.
Qed.

Lemma draw_levels (g : Game) : levels_ok g -> levels_ok (draw g).
Proof.
  intros [Hb Hd]. unfold draw. destruct (GameState_eqb (state g) MENU).
  - split; [| exact Hd]. cbn [buttons with_buttons].
    rewrite place_buttons_levels. exact Hb.
  - split; assumption.
Qed.

(** X17: the difficulty stays one of the three levels of the menu.  If
    the buttons of the game set only the levels 1 to 3 and the game
    holds such a level, then after a turn of the main loop (any events,
    the update of the frame, the drawing) it still does; the code has no
    other way to change the level than a click on a button. *)
Theorem difficulty_stays_a_menu_level (clock : nat -> Z)
    (events : list Event) (f : Frame) (g g' : Game) :
  levels_ok g -> run_turn clock events f g = Some g' -> levels_ok g'.
Proof.
  intros Hg Hrun. unfold run_turn in Hrun.
  destruct (handle_events clock events g) as [g1 |] eqn:H1; [| discriminate].
  injection Hrun as <-.
  apply draw_levels, update_levels.
  apply (handle_events_levels clock events g g1 Hg H1).
Qed.

(** The statement of X17 at the game as [__init__] makes it, with a
    click on the place of the "Hard" button before the first drawing. *)
Lemma difficulty_stays_a_menu_level_witness :
  levels_ok (new_game clock0 [] []) /\
  exists g',
    run_turn clock0 [MOUSEBUTTONDOWN 1 (400, 300)%Z] (quiet_frame 0)
      (new_game clock0 [] []) = Some g' /\
    difficulty g' = 3%Z /\ levels_ok g'.
Proof.
  assert (H0 : levels_ok (new_game clock0 [] [])) by (split; [reflexivity |
    cbn; lia]).
  split; [exact H0 |]. eexists. split; [reflexivity |].
  split; [reflexivity |].
  apply (difficulty_stays_a_menu_level clock0
           [MOUSEBUTTONDOWN 1 (400, 300)%Z] (quiet_frame 0)
           (new_game clock0 [] []) _ H0).
  reflexivity.
Defined.

Lemma place_buttons_below (bs : list Button.t) :
  forall (i : Z) (b : Button.t),
    In b (place_buttons i bs) -> (280 + i * 70 <= ry (Button.rect b))%Z.
Proof.
  induction bs as [| b0 bs IH]; intros i b Hin; [destruct Hin |].
  cbn [place_buttons] in Hin. destruct Hin as [<- | Hin].
  - cbn. lia.
  - apply IH in Hin. lia.
Qed.

Lemma hit_placed (point : Z * Z) (bs : list Button.t) :
  forall i : Z,
    (forall b, In b bs -> (rh (Button.rect b) <= 70)%Z) ->
    (List.length (hit point (place_buttons i bs)) <= 1)%nat.
Proof.
  induction bs as [| b0 bs IH]; intros i Hh; [cbn; lia |].
  cbn [place_buttons hit filter].
  assert (Hrest : forall b, In b bs -> (rh (Button.rect b) <= 70)%Z)
    by (intros b Hb; apply Hh; right; exact Hb).
  match goal with
  | |- context [if Button.contains ?b ?p then _ else _] =>
      destruct (Button.contains b p) eqn:Hc
  end.
  - fold (hit point (place_buttons (i + 1) bs)).
    assert (Hnone : hit point (place_buttons (i + 1) bs) = []).
    { apply filter_none. intros b Hb.
      apply place_buttons_below in Hb.
      unfold Button.contains, collidepoint in *. cbn [Button.rect rx ry rw rh]
        in Hc.
      apply andb_true_iff in Hc. destruct Hc as [_ Hy].
      apply Z.ltb_lt in Hy.
      specialize (Hh b0 (or_introl eq_refl)).
      destruct (ry (Button.rect b) <=? snd point)%Z eqn:Hle.
      - apply Z.leb_le in Hle. lia.
      - rewrite andb_false_r. reflexivity. }
    rewrite Hnone. cbn. lia.
  - apply IH. exact Hrest.
Qed.

(** X18: once the menu has been drawn, a point lies in at most one
    button, so that a click runs at most one action: [draw_menu] puts
    the buttons 70 apart, and none is higher than 70 (they are 50
    high). *)
Theorem a_click_hits_one_button (point : Z * Z) (g : Game) :
  state g = MENU ->
  (forall b, In b (buttons g) -> (rh (Button.rect b) <= 70)%Z) ->
  (List.length (hit point (buttons (draw g))) <= 1)%nat.
Proof.
  intros Hst Hh. unfold draw. rewrite Hst. cbn [GameState_eqb].
  cbn [buttons with_buttons]. apply hit_placed. exact Hh.
Qed.

(** The statement of X18 at the game as [__init__] makes it. *)
Lemma a_click_hits_one_button_witness :
  (List.length (hit (400, 510)%Z (buttons (draw (new_game clock0 [] []))))
   <= 1)%nat.
Proof.
  apply (a_click_hits_one_button (400, 510)%Z (new_game clock0 [] [])).
  - reflexivity.
  - intros b Hb. cbn in Hb.
    repeat (destruct Hb as [<- | Hb]; [cbn; lia |]). destruct Hb.
Defined.

(** ** The ranked list *)

Lemma sorted_app_inv (a b : list Entry.t) :
  StronglySorted score_ge (a ++ b) ->
  forall x y, In x a -> In y b -> score_ge x y.
Proof.
  induction a as [| e a IH]; intros Hs x y Hx Hy; [destruct Hx |].
  cbn [app] in Hs. apply StronglySorted_inv in Hs. destruct Hs as [Hs Hall].
  destruct Hx as [<- | Hx].
  - rewrite Forall_forall in Hall. apply Hall, in_or_app. right. exact Hy.
  - apply (IH Hs x y Hx Hy).
Qed.

(** X19: [update_high_scores] keeps the best five: the ranked list it
    leaves and the entries it drops are together the entries held before
    and the new one, nothing else; no dropped entry has a higher score
    than a kept one; entries are dropped only beyond five; and the list
    written to the file is the ranked list. *)
Theorem best_five_are_kept (g : Game) :
  exists dropped : list Entry.t,
    Permutation (high_scores (update_high_scores g) ++ dropped)
                (high_scores g ++ [new_entry g]) /\
    (forall kept_e dropped_e,
       In kept_e (high_scores (update_high_scores g)) ->
       In dropped_e dropped -> score_ge kept_e dropped_e) /\
    List.length dropped = (List.length (high_scores g) + 1 - 5)%nat /\
    saved (update_high_scores g)
      = high_scores (update_high_scores g) :: saved g.
Proof.
  rewrite update_high_scores_list. fold (new_entry g).
  set (l := high_scores g ++ [new_entry g]).
  exists (skipn 5 (sort_desc l)). split; [| split; [| split]].
  - rewrite firstn_skipn. apply sort_desc_perm.
  - apply sorted_app_inv. rewrite firstn_skipn. apply sort_desc_sorted.
  - rewrite length_skipn, (Permutation_length (sort_desc_perm l)).
    unfold l. rewrite length_app. reflexivity.
  - reflexivity.
Qed.

(** The statement of X19 at the game with two pursuers and an empty
    ranked list: nothing is dropped. *)
Lemma best_five_are_kept_witness :
  exists dropped : list Entry.t,
    Permutation (high_scores (update_high_scores two_pursuers) ++ dropped)
                (high_scores two_pursuers ++ [new_entry two_pursuers]) /\
    List.length dropped = 0%nat.
Proof.
  destruct (best_five_are_kept two_pursuers) as (dropped & Hp & _ & Hl & _).
  exists dropped. split; [exact Hp | exact Hl].
Defined.

Lemma sort_desc_of_sorted (l : list Entry.t) :
  StronglySorted score_ge l -> sort_desc l = l.
Proof.
  induction 1 as [| e l Hs IH Hall]; [reflexivity |].
  cbn [sort_desc fold_right]. fold (sort_desc l). rewrite IH.
  destruct l as [| e' l']; [reflexivity |].
  cbn [insert_desc]. apply Forall_inv in Hall. unfold score_ge in Hall.
  destruct (Entry.score e <? Entry.score e')%Z eqn:Hlt; [| reflexivity].
  apply Z.ltb_lt in Hlt. lia.
Qed.

Lemma sorted_snoc (l : list Entry.t) (e : Entry.t) :
  StronglySorted score_ge l ->
  (forall x, In x l -> score_ge x e) ->
  StronglySorted score_ge (l ++ [e]).
Proof.
  induction 1 as [| a l Hs IH Hall]; intros He; cbn [app].
  - repeat constructor.
  - constructor.
    + apply IH. intros x Hx. apply He. right. exact Hx.
    + apply Forall_app. split; [exact Hall |].
      constructor; [| constructor]. apply He. left. reflexivity.
Qed.

(** X20: on a ranked list that is in order, a run whose score is not
    above any entry goes last, behind the entries of the same score, and
    is dropped at once when the list already holds five: the list
    becomes the first five of the old list followed by the new entry. *)
Theorem low_score_goes_last (g : Game) :
  StronglySorted score_ge (high_scores g) ->
  (forall e, In e (high_scores g) -> score_ge e (new_entry g)) ->
  high_scores (update_high_scores g)
  = firstn 5 (high_scores g ++ [new_entry g]).
Proof.
  intros Hs Hlow. rewrite update_high_scores_list. fold (new_entry g).
  rewrite sort_desc_of_sorted; [reflexivity |].
  apply sorted_snoc; assumption.
Qed.

(** The statement of X20 at a list of three entries whose last has the
    score 0, and a run that scored 0: the run goes behind it. *)
Lemma low_score_goes_last_witness :
  high_scores (update_high_scores zero_run)
  = board3 ++ [Entry.mk (lit "Player") 0].
Proof.
  assert (Hn : new_entry zero_run = Entry.mk (lit "Player") 0).
  { unfold new_entry. f_equal. apply (py_int_IZR _ 0). reflexivity. }
  rewrite (low_score_goes_last zero_run).
  - rewrite Hn. reflexivity.
  - repeat constructor; unfold score_ge; cbn; lia.
  - intros e He. rewrite Hn. cbn in He. unfold score_ge.
    repeat (destruct He as [<- | He]; [cbn; lia |]). destruct He.
Defined.

(** ** The bubbles *)

Lemma bubble_update_ok (dt u : R) (b : Bubble.t) :
  0 <= dt -> 0 <= u <= 1 -> bubble_ok b -> bubble_ok (Bubble.update dt u b).
Proof.
  intros Hdt Hu (Hr & Hx & Hs & Hy). unfold Bubble.update. cbv zeta.
  cbn [Bubble.radius Bubble.x Bubble.y Bubble.speed].
  assert (H2 : 2 <= IZR (Bubble.radius b)) by (apply IZR_le; lia).
  assert (H6 : IZR (Bubble.radius b) <= 6) by (apply IZR_le; lia).
  unfold bubble_ok, SCREEN_WIDTH, SCREEN_HEIGHT in *.
  destruct (Rlt_dec (Bubble.y b - Bubble.speed b * dt
                     + IZR (Bubble.radius b)) 0) as [Hout | Hin].
  - rewrite (Rltb_true _ _ Hout).
    cbn [Bubble.radius Bubble.x Bubble.y Bubble.speed]. unfold uniform.
    repeat split; try lia; try lra; nra.
  - rewrite Rltb_false by lra.
    cbn [Bubble.radius Bubble.x Bubble.y Bubble.speed].
    repeat split; try lia; try lra; nra.
Qed.

Lemma bubble_loop_ok (f : Frame) (bs : list Bubble.t) :
  0 <= dt f -> (forall i, 0 <= bubble_u f i <= 1) ->
  forall i : nat,
    Forall bubble_ok bs ->
    Forall bubble_ok (bubble_loop f i bs) /\
    List.length (bubble_loop f i bs) = List.length bs.
Proof.
  intros Hdt Hu. induction bs as [| b bs IH]; intros i Hall.
  - split; [constructor | reflexivity].
  - apply Forall_cons_iff in Hall. destruct Hall as [Hb Hall].
    destruct (IH (S i) Hall) as [IH1 IH2].
    cbn [bubble_loop List.length]. split; [| rewrite IH2; reflexivity].
    constructor; [| exact IH1]. apply bubble_update_ok; auto.
Qed.

Lemma update_bubbles (f : Frame) (g : Game) :
  bubbles (update f g) =
  if GameState_eqb (state g) PLAYING then bubble_loop f 0 (bubbles g)
  else bubbles g.
Proof.
  destruct (GameState_eqb (state g) PLAYING) eqn:Hst.
  - assert (Hp : state g = PLAYING)
      by (destruct (state g); try discriminate; reflexivity).
    rewrite (update_spec f g Hp).
    change (bubbles (with_ranking ?x ?a ?b ?c)) with (bubbles x).
    unfold later_passes. cbv zeta. cbn [bubbles with_bubbles].
    rewrite (spawner_keep bubbles) by reflexivity.
    rewrite powerup_pass_spec.
    change (bubbles (with_powerups ?x ?l)) with (bubbles x).
    rewrite (effects_keep bubbles) by reflexivity. reflexivity.
  - unfold update. rewrite Hst. reflexivity.
Qed.

(** X21: the bubbles stay bubbles.  A bubble as [Bubble()] makes it lies
    in its column below the field; and if every bubble of the game has a
    radius from 2 to 6, a speed from 30 to 80 and a place in its column
    between the top and the bottom of the field (a radius beyond each),
    then after a frame with a time step that is not negative this is
    still so, and there are as many bubbles as before. *)
Theorem bubbles_stay_in_the_field (f : Frame) (g : Game) (radius : Z)
    (ux us : R) :
  0 <= dt f -> (forall i, 0 <= bubble_u f i <= 1) ->
  (2 <= radius <= 6)%Z -> 0 <= ux <= 1 -> 0 <= us <= 1 ->
  Forall bubble_ok (bubbles g) ->
  bubble_ok (new_bubble radius ux us) /\
  Forall bubble_ok (bubbles (update f g)) /\
  List.length (bubbles (update f g)) = List.length (bubbles g).
Proof.
  intros Hdt Hu Hr Hux Hus Hall. split.
  - assert (H2 : 2 <= IZR radius) by (apply IZR_le; lia).
    unfold bubble_ok, new_bubble, uniform, SCREEN_WIDTH, SCREEN_HEIGHT.
    cbn [Bubble.radius Bubble.x Bubble.y Bubble.speed].
    repeat split; try lia; try lra; nra.
  - rewrite update_bubbles.
    destruct (GameState_eqb (state g) PLAYING); [| split; auto].
    apply bubble_loop_ok; assumption.
Qed.

(** The statement of X21 at a run with two bubbles. *)
Lemma bubbles_stay_in_the_field_witness :
  Forall bubble_ok
    (bubbles (update (quiet_frame 1000)
                (with_bubbles playing_game
                   [new_bubble 2 (1 / 4) (1 / 2); new_bubble 6 1 0]))).
Proof.
  assert (Hb : forall r ux us, (2 <= r <= 6)%Z -> 0 <= ux <= 1 ->
            0 <= us <= 1 -> bubble_ok (new_bubble r ux us)).
  { intros r ux us Hr Hux Hus.
    assert (H2 : 2 <= IZR r) by (apply IZR_le; lia).
    unfold bubble_ok, new_bubble, uniform, SCREEN_WIDTH, SCREEN_HEIGHT.
    cbn [Bubble.radius Bubble.x Bubble.y Bubble.speed].
    repeat split; try lia; try lra; nra. }
  apply (bubbles_stay_in_the_field (quiet_frame 1000)
           (with_bubbles playing_game
              [new_bubble 2 (1 / 4) (1 / 2); new_bubble 6 1 0])
           2 (1 / 2) (1 / 2)).
  - cbn. lra.
  - intros i. cbn. lra.
  - lia.
  - lra.
  - lra.
  - cbn [bubbles with_bubbles].
    constructor; [apply Hb; try lia; lra |].
    constructor; [apply Hb; try lia; lra | constructor].
Defined.

(** ** More on events and frames *)

(** X22: the event loop ends the process exactly when the queue holds a
    request to quit: events before it are handled, events behind it are
    not, and without one every event is handled and a game comes
    back. *)
Theorem quit_ends_the_process (clock : nat -> Z) (events : list Event)
    (g : Game) :
  handle_events clock events g = None <-> In QUIT events.
Proof.
  revert g. induction events as [| e events IH]; intros g.
  - cbn. split; [discriminate | tauto].
  - cbn [handle_events In].
    destruct (handle_event clock e g) as [g1 |] eqn:He.
    + rewrite IH. split; [tauto |]. intros [-> | Hin]; [| exact Hin].
      discriminate He.
    + split; [| reflexivity]. intros _. left.
      destruct e; try discriminate He. reflexivity.
Qed.

(** X23: in a frame of the playing state the player is moved by its own
    update and by nothing else: its position, velocity and facing after
    the frame are those that [Fish.update] gives, whatever pursuers,
    Power-ups and spawns the frame has; so the player's box is inside
    the field after every frame. *)
Theorem player_of_a_frame (f : Frame) (g : Game) :
  state g = PLAYING ->
  vx (Fish.size (player g)) <= SCREEN_WIDTH ->
  vy (Fish.size (player g)) <= SCREEN_HEIGHT ->
  Fish.position (player (update f g))
    = Fish.position (Fish.update (dt f) (keys f) (player g)) /\
  Fish.velocity (player (update f g))
    = Fish.velocity (Fish.update (dt f) (keys f) (player g)) /\
  Fish.direction (player (update f g))
    = Fish.direction (Fish.update (dt f) (keys f) (player g)) /\
  0 <= vx (Fish.position (player (update f g)))
    <= SCREEN_WIDTH - vx (Fish.size (player g)) /\
  0 <= vy (Fish.position (player (update f g)))
    <= SCREEN_HEIGHT - vy (Fish.size (player g)).
Proof.
  intros Hst Hw Hh. rewrite (update_spec f g Hst).
  change (player (with_ranking ?x ?a ?b ?c)) with (player x).
  rewrite (later_passes_keep (fun g => Fish.position (player g)))
    by reflexivity.
  rewrite (later_passes_keep (fun g => Fish.velocity (player g)))
    by reflexivity.
  rewrite (later_passes_keep (fun g => Fish.direction (player g)))
    by reflexivity.
  cbn [player with_sharks advance with_player].
  split; [reflexivity |]. split; [reflexivity |]. split; [reflexivity |].
  rewrite update_position. cbv zeta. cbn [vx vy].
  split; apply clamp_range; lra.
Qed.

(** The statement of X23 at the frame with one pursuer and a score
    bonus. *)
Lemma player_of_a_frame_witness :
  0 <= vx (Fish.position (player (update (quiet_frame 3000)
                                     pursuer_and_bonus)))
    <= SCREEN_WIDTH - vx (Fish.size (player pursuer_and_bonus)).
Proof.
  apply (player_of_a_frame (quiet_frame 3000) pursuer_and_bonus).
  - reflexivity.
  - cbn. unfold SCREEN_WIDTH. lra.
  - cbn. unfold SCREEN_HEIGHT. lra.
Defined.
